(** * ondulextractor: a model of [src/App.js] and its verified properties.

    [src/App.js] holds two versions of the component; the model follows the
    second (lines 303-664), which adds the login screen and whose other
    handlers are those of the first. Line numbers refer to that file.

    The React component is modelled as an event-driven machine:
    - the component state ([useState] cells) is a record;
    - every handler of the source is a function from the world it reads to
      the list of commands it performs, in program order;
    - the host (provider callbacks, timers, clock, local storage, the user)
      is a set of events that a step function applies to the world. *)

From Stdlib Require Import ZArith QArith Ascii String.
From stdpp Require Import base decidable option list gmap.

Local Open Scope Z_scope.

(** ** JavaScript strings: sequences of UTF-16 code units *)

Module Js.

Abbreviation jsstring := (list N).

Fixpoint lit (s : string) : jsstring :=
  match s with
  | EmptyString => []
  | String a r => N_of_ascii a :: lit r
  end.

(** Code units matched by the [\s]-like set that [String.prototype.trim]
    strips: white space and line terminators. *)
Definition is_trim_space (c : N) : bool :=
  ((c =? 9) || (c =? 10) || (c =? 11) || (c =? 12) || (c =? 13) || (c =? 32)
   || (c =? 160) || (c =? 5760) || ((8192 <=? c) && (c <=? 8202))
   || (c =? 8232) || (c =? 8233) || (c =? 8239) || (c =? 8287)
   || (c =? 12288) || (c =? 65279))%N.

Fixpoint trimStart (s : jsstring) : jsstring :=
  match s with
  | [] => []
  | c :: r => if is_trim_space c then trimStart r else s
  end.

Definition trimEnd (s : jsstring) : jsstring := rev (trimStart (rev s)).

Definition trim (s : jsstring) : jsstring := trimEnd (trimStart s).

(** [s.replace(re, repl)] for a global regular expression [re] that is a
    single character class: every code unit matched by the class is replaced
    by [repl], the others are kept. *)
Definition replace_class_g (matches : N -> bool) (repl : jsstring)
    (s : jsstring) : jsstring :=
  flat_map (fun c => if matches c then repl else [c]) s.

(** [s.slice(0, n)] for [0 <= n]. *)
Definition slice0 (n : nat) (s : jsstring) : jsstring := firstn n s.

(** ** JavaScript values, as far as the component handles them.
    Numbers are rationals or NaN; objects are opaque references. *)
Inductive value :=
| VUndefined
| VNull
| VBool (b : bool)
| VNum (q : Q)
| VNaN
| VStr (s : jsstring)
| VObj (ref : nat).

(** ToBoolean *)
Definition truthy (v : value) : bool :=
  match v with
  | VUndefined | VNull | VNaN => false
  | VBool b => b
  | VNum q => negb (Qnum q =? 0)
  | VStr s => match s with [] => false | _ => true end
  | VObj _ => true
  end.

(** [a || b] *)
Definition or_else (a b : value) : value := if truthy a then a else b.

(** A property that is absent reads as [undefined]; [null] is the other
    way a provider leaves a field out. *)
Definition missing (v : value) : bool :=
  match v with
  | VUndefined | VNull => true
  | _ => false
  end.

End Js.

Import Js.

(** ** The host's [Date]: time values are milliseconds since the epoch, UTC.
    [toISOString] follows ECMA-262: a four-digit year inside 0..9999, the
    signed six-digit expanded year outside. *)

Module JsDate.

Definition msPerDay : Z := 86400000.

Definition Day (t : Z) : Z := t / msPerDay.
Definition TimeWithinDay (t : Z) : Z := t mod msPerDay.

(** Calendar date (year, month 1..12, day of month) of a day number counted
    from 1970-01-01, proleptic Gregorian calendar. *)
Definition civil_from_days (days : Z) : Z * Z * Z :=
  let z := days + 719468 in
  let era := z / 146097 in
  let doe := z - era * 146097 in
  let yoe := (doe - doe / 1460 + doe / 36524 - doe / 146096) / 365 in
  let doy := doe - (365 * yoe + yoe / 4 - yoe / 100) in
  let mp := (5 * doy + 2) / 153 in
  let d := doy - (153 * mp + 2) / 5 + 1 in
  let m := if mp <? 10 then mp + 3 else mp - 9 in
  let y := yoe + era * 400 + (if m <=? 2 then 1 else 0) in
  (y, m, d).

(** The inverse direction, [Date.UTC(y, m - 1, d) / msPerDay]: the day number
    of a calendar date. *)
Definition days_from_civil (y m d : Z) : Z :=
  let y' := if m <=? 2 then y - 1 else y in
  let era := y' / 400 in
  let yoe := y' - era * 400 in
  let mp := if 2 <? m then m - 3 else m + 9 in
  let doy := (153 * mp + 2) / 5 + d - 1 in
  let doe := yoe * 365 + yoe / 4 - yoe / 100 + doy in
  era * 146097 + doe - 719468.

Definition is_leap (y : Z) : bool :=
  ((y mod 4 =? 0) && negb (y mod 100 =? 0)) || (y mod 400 =? 0).

Definition days_in_month (y m : Z) : Z :=
  if m =? 2 then (if is_leap y then 29 else 28)
  else if (m =? 4) || (m =? 6) || (m =? 9) || (m =? 11) then 30
  else 31.

Definition digit (d : Z) : N := (48 + Z.to_N d)%N.

(** The [k] low decimal digits of [n], most significant first: a number
    padded with zeros to width [k]. *)
Fixpoint decimal (k : nat) (n : Z) : jsstring :=
  match k with
  | O => []
  | S k' => decimal k' (n / 10) ++ [digit (n mod 10)]
  end.

Definition year_string (y : Z) : jsstring :=
  if (0 <=? y) && (y <=? 9999) then decimal 4 y
  else (if y <? 0 then lit "-" else lit "+") ++ decimal 6 (Z.abs y).

Definition toISOString (t : Z) : jsstring :=
  let '(y, m, d) := civil_from_days (Day t) in
  let r := TimeWithinDay t in
  year_string y ++ lit "-" ++ decimal 2 m ++ lit "-" ++ decimal 2 d
  ++ lit "T" ++ decimal 2 (r / 3600000)
  ++ lit ":" ++ decimal 2 (r / 60000 mod 60)
  ++ lit ":" ++ decimal 2 (r / 1000 mod 60)
  ++ lit "." ++ decimal 3 (r mod 1000) ++ lit "Z".

End JsDate.

(** ** Data of the component *)

(** A place summary or a place detail record: a JavaScript object whose
    properties may all be absent. *)
Record Place := {
  place_id : value;
  name : value;
  formatted_address : value;
  formatted_phone_number : value;
  website : value;
  rating : value;
  user_ratings_total : value;
  photos : value
}.

(** The [pagination] object the provider passes to the page callback. *)
Record Pagination := { pag_id : nat; hasNextPage : bool }.

(** The function stored by [setNextPage] (lines 388-393): it closes over
    [pagination]. Its body is [continuation_body] below. *)
Inductive Continuation := DelayedNextPage (pagination : Pagination).

(** The function given to [setTimeout] (line 391). *)
Inductive Thunk := CallNextPage (pagination : Pagination).

Inductive Tab := TabSearch | TabResults.

(** The [useState] cells of [App] (lines 313-322). *)
Record State := {
  activeTab : Tab;
  query : jsstring;
  results : list Place;
  loading : bool;
  error : jsstring;
  nextPage : option Continuation;
  isAuthenticated : bool;
  enteredKey : jsstring
}.

(** The record kept in local storage, [{ key, expiry }]; the storage cell
    holds its JSON text, and [JSON.parse] of [JSON.stringify] gives the
    record back. *)
Record Session := { key : jsstring; expiry : Z }.

(** One row handed to [json_to_sheet]: an object literal, its keys in
    insertion order. *)
Abbreviation Row := (list (jsstring * value)).

Record Download := {
  sheet_name : jsstring;
  sheet_rows : list Row;
  mime : jsstring;
  filename : jsstring
}.

(** Requests awaiting the provider: a text search or a next-page call
    answer through [placesCallback]; a detail lookup answers through the
    callback that closes over its [place] (lines 373-380). *)
Inductive PageReq :=
| ReqTextSearch (q : jsstring)
| ReqNextPage (pagination : Pagination).

Record DetailsReq := {
  req_placeId : value;
  req_fields : list jsstring;
  req_place : Place
}.

Record Timer := { tid : nat; due : Z; thunk : Thunk }.

(** ** Commands: what a handler does, in program order *)

Inductive Cmd :=
| SetActiveTab (t : Tab)
| SetResultsTo (l : list Place)          (* setResults(l) *)
| SetResultsAppend (p : Place)           (* setResults(prev => [...prev, p]) *)
| SetLoading (b : bool)
| SetError (msg : jsstring)
| SetNextPage (c : option Continuation)
| SetIsAuthenticated (b : bool)
| NewPlacesService                       (* serviceRef.current = new PlacesService(map) *)
| TextSearch (q : jsstring)              (* serviceRef.current.textSearch({query}, placesCallback) *)
| GetDetails (r : DetailsReq)            (* serviceRef.current.getDetails(r, cb) *)
| NextPage (pagination : Pagination)     (* pagination.nextPage() *)
| SetTimeout (f : Thunk) (delay : Z)
| StorageSetItem (k : jsstring) (v : Session)
| StorageRemoveItem (k : jsstring)
| Alert (msg : jsstring)
| SaveAs (d : Download).

(** A statement of the [try] block of [handleSearch] (lines 417-421) may
    throw although [window.google] is defined: the constructors
    [new window.google.maps.Map] and [new ...places.PlacesService] when the
    SDK is incomplete (a TypeError), or the call of [textSearch]. A fault
    tells where the error is thrown and its [message]; the empty message
    stands for an error without one. *)
Inductive ThrowPoint := InConstructors | InTextSearch.

Record SdkFault := { fault_at : ThrowPoint; fault_message : jsstring }.

(** The world: component state, the ref, and the host. *)
Record World := {
  st : State;
  serviceRef : option nat;
  sdk_loaded : bool;                     (* window.google is defined *)
  sdk_fault : option SdkFault;           (* what the SDK throws, if it does *)
  clock : Z;                             (* Date.now() *)
  storage : gmap jsstring Session;       (* localStorage *)
  page_reqs : list PageReq;
  detail_reqs : list DetailsReq;
  timers : list Timer;
  next_tid : nat;
  alerts : list jsstring;
  downloads : list Download
}.

Definition with_st (f : State -> State) (w : World) : World :=
  {| st := f (st w); serviceRef := serviceRef w; sdk_loaded := sdk_loaded w; sdk_fault := sdk_fault w;
     clock := clock w; storage := storage w; page_reqs := page_reqs w;
     detail_reqs := detail_reqs w; timers := timers w; next_tid := next_tid w;
     alerts := alerts w; downloads := downloads w |}.

Definition set_activeTab (t : Tab) (s : State) : State :=
  {| activeTab := t; query := query s; results := results s;
     loading := loading s; error := error s; nextPage := nextPage s;
     isAuthenticated := isAuthenticated s; enteredKey := enteredKey s |}.

Definition set_query (q : jsstring) (s : State) : State :=
  {| activeTab := activeTab s; query := q; results := results s;
     loading := loading s; error := error s; nextPage := nextPage s;
     isAuthenticated := isAuthenticated s; enteredKey := enteredKey s |}.

Definition set_results (f : list Place -> list Place) (s : State) : State :=
  {| activeTab := activeTab s; query := query s; results := f (results s);
     loading := loading s; error := error s; nextPage := nextPage s;
     isAuthenticated := isAuthenticated s; enteredKey := enteredKey s |}.

Definition set_loading (b : bool) (s : State) : State :=
  {| activeTab := activeTab s; query := query s; results := results s;
     loading := b; error := error s; nextPage := nextPage s;
     isAuthenticated := isAuthenticated s; enteredKey := enteredKey s |}.

Definition set_error (e : jsstring) (s : State) : State :=
  {| activeTab := activeTab s; query := query s; results := results s;
     loading := loading s; error := e; nextPage := nextPage s;
     isAuthenticated := isAuthenticated s; enteredKey := enteredKey s |}.

Definition set_nextPage (c : option Continuation) (s : State) : State :=
  {| activeTab := activeTab s; query := query s; results := results s;
     loading := loading s; error := error s; nextPage := c;
     isAuthenticated := isAuthenticated s; enteredKey := enteredKey s |}.

Definition set_isAuthenticated (b : bool) (s : State) : State :=
  {| activeTab := activeTab s; query := query s; results := results s;
     loading := loading s; error := error s; nextPage := nextPage s;
     isAuthenticated := b; enteredKey := enteredKey s |}.

Definition set_enteredKey (k : jsstring) (s : State) : State :=
  {| activeTab := activeTab s; query := query s; results := results s;
     loading := loading s; error := error s; nextPage := nextPage s;
     isAuthenticated := isAuthenticated s; enteredKey := k |}.

(** Effect of one command on the world. *)
Definition exec (c : Cmd) (w : World) : World :=
  match c with
  | SetActiveTab t => with_st (set_activeTab t) w
  | SetResultsTo l => with_st (set_results (fun _ => l)) w
  | SetResultsAppend p => with_st (set_results (fun prev => prev ++ [p])) w
  | SetLoading b => with_st (set_loading b) w
  | SetError e => with_st (set_error e) w
  | SetNextPage c => with_st (set_nextPage c) w
  | SetIsAuthenticated b => with_st (set_isAuthenticated b) w
  | NewPlacesService =>
      {| st := st w;
         serviceRef := Some (match serviceRef w with None => O | Some n => S n end);
         sdk_loaded := sdk_loaded w; sdk_fault := sdk_fault w; clock := clock w; storage := storage w;
         page_reqs := page_reqs w; detail_reqs := detail_reqs w;
         timers := timers w; next_tid := next_tid w; alerts := alerts w;
         downloads := downloads w |}
  | TextSearch q =>
      {| st := st w; serviceRef := serviceRef w; sdk_loaded := sdk_loaded w; sdk_fault := sdk_fault w;
         clock := clock w; storage := storage w;
         page_reqs := page_reqs w ++ [ReqTextSearch q];
         detail_reqs := detail_reqs w; timers := timers w;
         next_tid := next_tid w; alerts := alerts w; downloads := downloads w |}
  | NextPage p =>
      {| st := st w; serviceRef := serviceRef w; sdk_loaded := sdk_loaded w; sdk_fault := sdk_fault w;
         clock := clock w; storage := storage w;
         page_reqs := page_reqs w ++ [ReqNextPage p];
         detail_reqs := detail_reqs w; timers := timers w;
         next_tid := next_tid w; alerts := alerts w; downloads := downloads w |}
  | GetDetails r =>
      {| st := st w; serviceRef := serviceRef w; sdk_loaded := sdk_loaded w; sdk_fault := sdk_fault w;
         clock := clock w; storage := storage w; page_reqs := page_reqs w;
         detail_reqs := detail_reqs w ++ [r]; timers := timers w;
         next_tid := next_tid w; alerts := alerts w; downloads := downloads w |}
  | SetTimeout f delay =>
      {| st := st w; serviceRef := serviceRef w; sdk_loaded := sdk_loaded w; sdk_fault := sdk_fault w;
         clock := clock w; storage := storage w; page_reqs := page_reqs w;
         detail_reqs := detail_reqs w;
         timers := timers w
                   ++ [{| tid := next_tid w; due := clock w + delay; thunk := f |}];
         next_tid := S (next_tid w); alerts := alerts w;
         downloads := downloads w |}
  | StorageSetItem k v =>
      {| st := st w; serviceRef := serviceRef w; sdk_loaded := sdk_loaded w; sdk_fault := sdk_fault w;
         clock := clock w; storage := <[k := v]> (storage w);
         page_reqs := page_reqs w; detail_reqs := detail_reqs w;
         timers := timers w; next_tid := next_tid w; alerts := alerts w;
         downloads := downloads w |}
  | StorageRemoveItem k =>
      {| st := st w; serviceRef := serviceRef w; sdk_loaded := sdk_loaded w; sdk_fault := sdk_fault w;
         clock := clock w; storage := delete k (storage w);
         page_reqs := page_reqs w; detail_reqs := detail_reqs w;
         timers := timers w; next_tid := next_tid w; alerts := alerts w;
         downloads := downloads w |}
  | Alert msg =>
      {| st := st w; serviceRef := serviceRef w; sdk_loaded := sdk_loaded w; sdk_fault := sdk_fault w;
         clock := clock w; storage := storage w; page_reqs := page_reqs w;
         detail_reqs := detail_reqs w; timers := timers w;
         next_tid := next_tid w; alerts := alerts w ++ [msg];
         downloads := downloads w |}
  | SaveAs d =>
      {| st := st w; serviceRef := serviceRef w; sdk_loaded := sdk_loaded w; sdk_fault := sdk_fault w;
         clock := clock w; storage := storage w; page_reqs := page_reqs w;
         detail_reqs := detail_reqs w; timers := timers w;
         next_tid := next_tid w; alerts := alerts w;
         downloads := downloads w ++ [d] |}
  end.

Definition run_cmds (cs : list Cmd) (w : World) : World :=
  fold_left (fun w c => exec c w) cs w.

(** ** Constants of the source and of the provider *)

Definition SECRET_KEY : jsstring := lit "ONDULEX2025".
Definition SESSION_DURATION : Z := 24 * 60 * 60 * 1000.
Definition session_item : jsstring := lit "onduleSession".

(** [window.google.maps.places.PlacesServiceStatus.OK] *)
Definition PlacesServiceStatus_OK : jsstring := lit "OK".

Definition is_OK (status : jsstring) : bool :=
  bool_decide (status = PlacesServiceStatus_OK).

Definition detail_fields : list jsstring :=
  [lit "name"; lit "formatted_address"; lit "formatted_phone_number";
   lit "website"; lit "rating"; lit "user_ratings_total"; lit "photos"].

Definition NA : value := VStr (lit "N/A").
Definition ZERO : value := VStr (lit "0").

(** ** The handlers of [App] *)

(** Lines 328-338: the effect run once when the component mounts. *)
Definition checkSession (w : World) : list Cmd :=
  match storage w !! session_item with
  | Some sessionData =>
      if clock w <? expiry sessionData
      then [SetIsAuthenticated true]
      else [StorageRemoveItem session_item]
  | None => []
  end.

(** Lines 341-353. *)
Definition handleLogin (w : World) : list Cmd :=
  if bool_decide (enteredKey (st w) = SECRET_KEY)
  then [StorageSetItem session_item
          {| key := SECRET_KEY; expiry := clock w + SESSION_DURATION |};
        SetIsAuthenticated true]
  else [Alert (10060%N :: lit " Invalid key. Please try again.")].

(** Lines 373-380: the callback of one detail lookup; [place] is the
    summary it closes over, [details] what the provider passes (read only
    when the status is OK). *)
Definition detailsCallback (place : Place) (details : Place)
    (detailsStatus : jsstring) : list Cmd :=
  if is_OK detailsStatus
  then [SetResultsAppend details]
  else [SetResultsAppend place].

(** Lines 389-393: the body of the stored continuation. *)
Definition continuation_body (c : Continuation) : list Cmd :=
  match c with
  | DelayedNextPage pagination => [SetTimeout (CallNextPage pagination) 2000]
  end.

(** Line 391: the body of the timer's function. *)
Definition thunk_body (f : Thunk) : list Cmd :=
  match f with
  | CallNextPage pagination => [NextPage pagination]
  end.

Definition details_request (place : Place) : DetailsReq :=
  {| req_placeId := place_id place; req_fields := detail_fields;
     req_place := place |}.

(** Lines 356-401. [pagination] is [None] when the provider passes a falsy
    value. *)
Definition placesCallback (res : list Place) (status : jsstring)
    (pagination : option Pagination) : list Cmd :=
  (if is_OK status
   then map (fun place => GetDetails (details_request place)) res
        ++ [SetActiveTab TabResults]
        ++ [match pagination with
            | Some p =>
                if hasNextPage p
                then SetNextPage (Some (DelayedNextPage p))
                else SetNextPage None
            | None => SetNextPage None
            end]
   else [SetError (lit "Google Places request failed: " ++ status)])
  ++ [SetLoading false].

Definition sdk_error_message : jsstring :=
  lit "Google Maps SDK not loaded. Check index.html script.".

(** Line 423: [err.message || "An error occurred"]. *)
Definition caught_message (message : jsstring) : jsstring :=
  if truthy (VStr message) then message else lit "An error occurred".

(** Lines 403-426, after [e.preventDefault()]. The [try] block throws
    itself when [window.google] is absent; otherwise its statements run in
    order until one throws, if one does: a throw in a constructor leaves
    the ref unassigned, a throw in [textSearch] comes after the assignment
    of the ref. The [catch] block reports whatever was thrown. *)
Definition handleSearch (w : World) : list Cmd :=
  if negb (truthy (VStr (trim (query (st w))))) then []
  else
    [SetLoading true; SetError []; SetResultsTo []; SetNextPage None]
    ++ (if sdk_loaded w
        then match sdk_fault w with
             | None => [NewPlacesService; TextSearch (query (st w))]
             | Some fault =>
                 match fault_at fault with
                 | InConstructors => []
                 | InTextSearch => [NewPlacesService]
                 end
                 ++ [SetError (caught_message (fault_message fault));
                     SetLoading false]
             end
        else [SetError (caught_message sdk_error_message);
              SetLoading false]).

(** Lines 428-433. *)
Definition loadMore (w : World) : list Cmd :=
  match nextPage (st w) with
  | Some c => SetLoading true :: continuation_body c
  | None => []
  end.

(** Lines 437-444: the row built for one result. *)
Definition export_row (item : Place) : Row :=
  [(lit "Name", or_else (name item) NA);
   (lit "Address", or_else (formatted_address item) NA);
   (lit "Phone", or_else (formatted_phone_number item) NA);
   (lit "Website", or_else (website item) NA);
   (lit "Rating", or_else (rating item) NA);
   (lit "Total Reviews", or_else (user_ratings_total item) ZERO)].

(** The class [a-zA-Z0-9_-] of line 455. *)
Definition in_class (c : N) : bool :=
  (((97 <=? c) && (c <=? 122)) || ((65 <=? c) && (c <=? 90))
   || ((48 <=? c) && (c <=? 57)) || (c =? 95) || (c =? 45))%N.

(** Line 455. *)
Definition sanitizedQuery (q : jsstring) : jsstring :=
  replace_class_g (fun c => negb (in_class c)) (lit "_") q.

(** Lines 456-459: the template literal. *)
Definition export_filename (q : jsstring) (now : Z) : jsstring :=
  lit "leads_" ++ sanitizedQuery q ++ lit "_"
  ++ slice0 10 (JsDate.toISOString now) ++ lit ".xlsx".

(** Lines 435-460. *)
Definition downloadExcel (w : World) : list Cmd :=
  [SaveAs {| sheet_name := lit "Google Leads";
             sheet_rows := map export_row (results (st w));
             mime := lit "application/vnd.openxmlformats-officedocument.spreadsheetml.sheet";
             filename := export_filename (query (st w)) (clock w) |}].

(** ** The host: events and the step function *)

(** The user's actions, the provider's callbacks, a timer firing, time
    passing, and the Maps script defining [window.google], either complete
    ([SdkLoads]) or with a fault ([SdkLoadsFaulty]). *)
Inductive Event :=
| ChangeEnteredKey (s : jsstring)
| SubmitLogin
| ChangeQuery (s : jsstring)
| SubmitSearch
| ClickBack
| ClickLoadMore
| ClickDownload
| PageReply (i : nat) (res : list Place) (status : jsstring)
            (pagination : option Pagination)
| DetailsReply (i : nat) (details : Place) (status : jsstring)
| TimerFires (id : nat)
| Tick (dt : Z)
| SdkLoads
| SdkLoadsFaulty (fault : SdkFault).

Definition drop_page_req (i : nat) (w : World) : World :=
  {| st := st w; serviceRef := serviceRef w; sdk_loaded := sdk_loaded w; sdk_fault := sdk_fault w;
     clock := clock w; storage := storage w;
     page_reqs := delete i (page_reqs w);
     detail_reqs := detail_reqs w; timers := timers w;
     next_tid := next_tid w; alerts := alerts w; downloads := downloads w |}.

Definition drop_detail_req (i : nat) (w : World) : World :=
  {| st := st w; serviceRef := serviceRef w; sdk_loaded := sdk_loaded w; sdk_fault := sdk_fault w;
     clock := clock w; storage := storage w; page_reqs := page_reqs w;
     detail_reqs := delete i (detail_reqs w); timers := timers w;
     next_tid := next_tid w; alerts := alerts w; downloads := downloads w |}.

Definition has_tid (id : nat) (t : Timer) : bool := Nat.eqb (tid t) id.

Definition drop_timer (id : nat) (w : World) : World :=
  {| st := st w; serviceRef := serviceRef w; sdk_loaded := sdk_loaded w; sdk_fault := sdk_fault w;
     clock := clock w; storage := storage w; page_reqs := page_reqs w;
     detail_reqs := detail_reqs w;
     timers := List.filter (fun t => negb (has_tid id t)) (timers w);
     next_tid := next_tid w; alerts := alerts w; downloads := downloads w |}.

Definition advance (dt : Z) (w : World) : World :=
  {| st := st w; serviceRef := serviceRef w; sdk_loaded := sdk_loaded w; sdk_fault := sdk_fault w;
     clock := clock w + dt; storage := storage w; page_reqs := page_reqs w;
     detail_reqs := detail_reqs w; timers := timers w;
     next_tid := next_tid w; alerts := alerts w; downloads := downloads w |}.

Definition load_sdk (w : World) : World :=
  {| st := st w; serviceRef := serviceRef w; sdk_loaded := true;
     sdk_fault := None; clock := clock w; storage := storage w; page_reqs := page_reqs w;
     detail_reqs := detail_reqs w; timers := timers w;
     next_tid := next_tid w; alerts := alerts w; downloads := downloads w |}.

(** [window.google] gets defined, but with the fault. *)
Definition load_faulty_sdk (fault : SdkFault) (w : World) : World :=
  {| st := st w; serviceRef := serviceRef w; sdk_loaded := true;
     sdk_fault := Some fault; clock := clock w; storage := storage w;
     page_reqs := page_reqs w; detail_reqs := detail_reqs w;
     timers := timers w; next_tid := next_tid w; alerts := alerts w;
     downloads := downloads w |}.

Definition nonempty {A} (l : list A) : bool :=
  match l with [] => false | _ => true end.

(** What the rendered page lets the user do (lines 462-512 and the
    [SearchSection] and [ResultsSection] components). The key input and the
    query input are [required] (lines 473 and 526): the browser submits
    their form only when the input is not empty. *)
Definition search_form_enabled (s : State) : bool :=
  isAuthenticated s
  && match activeTab s with TabSearch => true | TabResults => false end
  && negb (loading s).

Definition results_shown (s : State) : bool :=
  isAuthenticated s
  && match activeTab s with TabResults => true | TabSearch => false end.

Definition step (w : World) (ev : Event) : option World :=
  match ev with
  | ChangeEnteredKey s =>
      if isAuthenticated (st w) then None
      else Some (with_st (set_enteredKey s) w)
  | SubmitLogin =>
      if isAuthenticated (st w) then None
      else if nonempty (enteredKey (st w))
           then Some (run_cmds (handleLogin w) w)
           else None
  | ChangeQuery s =>
      if search_form_enabled (st w) then Some (with_st (set_query s) w)
      else None
  | SubmitSearch =>
      if search_form_enabled (st w) && nonempty (query (st w))
      then Some (run_cmds (handleSearch w) w)
      else None
  | ClickBack =>
      if results_shown (st w) then Some (exec (SetActiveTab TabSearch) w)
      else None
  | ClickLoadMore =>
      if results_shown (st w) && nonempty (results (st w))
         && bool_decide (is_Some (nextPage (st w))) && negb (loading (st w))
      then Some (run_cmds (loadMore w) w)
      else None
  | ClickDownload =>
      if results_shown (st w) && nonempty (results (st w))
      then Some (run_cmds (downloadExcel w) w)
      else None
  | PageReply i res status pagination =>
      match page_reqs w !! i with
      | Some _ =>
          Some (run_cmds (placesCallback res status pagination)
                  (drop_page_req i w))
      | None => None
      end
  | DetailsReply i details status =>
      match detail_reqs w !! i with
      | Some r =>
          Some (run_cmds (detailsCallback (req_place r) details status)
                  (drop_detail_req i w))
      | None => None
      end
  | TimerFires id =>
      match List.find (has_tid id) (timers w) with
      | Some t =>
          if due t <=? clock w
          then Some (run_cmds (thunk_body (thunk t)) (drop_timer id w))
          else None
      | None => None
      end
  | Tick dt => if 0 <=? dt then Some (advance dt w) else None
  | SdkLoads => Some (load_sdk w)
  | SdkLoadsFaulty fault => Some (load_faulty_sdk fault w)
  end.

Fixpoint run (w : World) (evs : list Event) : option World :=
  match evs with
  | [] => Some w
  | ev :: rest =>
      match step w ev with
      | Some w' => run w' rest
      | None => None
      end
  end.

(** The state of a freshly constructed component (lines 313-322). *)
Definition initial_state : State :=
  {| activeTab := TabSearch; query := []; results := []; loading := false;
     error := []; nextPage := None; isAuthenticated := false;
     enteredKey := [] |}.

(** The page as loaded at time [now] with local storage [ls], before the
    mount effect has run. *)
Definition fresh (now : Z) (ls : gmap jsstring Session) (sdk : bool) : World :=
  {| st := initial_state; serviceRef := None; sdk_loaded := sdk;
     sdk_fault := None; clock := now;
     storage := ls; page_reqs := []; detail_reqs := []; timers := [];
     next_tid := O; alerts := []; downloads := [] |}.

(** The page after the mount effect. *)
Definition boot (now : Z) (ls : gmap jsstring Session) (sdk : bool) : World :=
  run_cmds (checkSession (fresh now ls sdk)) (fresh now ls sdk).

(** ** Statements in the words of the specification *)

(** "the source value if present, the default if missing" *)
Definition spec_default (src dflt : value) : value :=
  if missing src then dflt else src.

Definition spec_export_row (item : Place) : Row :=
  [(lit "Name", spec_default (name item) NA);
   (lit "Address", spec_default (formatted_address item) NA);
   (lit "Phone", spec_default (formatted_phone_number item) NA);
   (lit "Website", spec_default (website item) NA);
   (lit "Rating", spec_default (rating item) NA);
   (lit "Total Reviews", spec_default (user_ratings_total item) ZERO)].

(** What a cell holds, given its source property and its default: the
    source when it is truthy, the default otherwise (so also when the source
    is missing); the cell itself is never falsy. *)
Definition exported (src dflt cell : value) : Prop :=
  (truthy src = true -> cell = src)
  /\ (truthy src = false -> cell = dflt)
  /\ (missing src = true -> cell = dflt)
  /\ truthy cell = true.

Definition row_ok (item : Place) (row : Row) : Prop :=
  exists c1 c2 c3 c4 c5 c6,
    row = [(lit "Name", c1); (lit "Address", c2); (lit "Phone", c3);
           (lit "Website", c4); (lit "Rating", c5);
           (lit "Total Reviews", c6)]
    /\ exported (name item) NA c1
    /\ exported (formatted_address item) NA c2
    /\ exported (formatted_phone_number item) NA c3
    /\ exported (website item) NA c4
    /\ exported (rating item) NA c5
    /\ exported (user_ratings_total item) ZERO c6.

(** "every character outside the class replaced by an underscore" *)
Definition spec_sanitize (q : jsstring) : jsstring :=
  map (fun c => if in_class c then c else 95%N) q.

(** A record whose website, rating and review count are present but falsy:
    the empty string and the number 0. *)
Definition unrated_place : Place :=
  {| place_id := VStr (lit "p0"); name := VStr (lit "Cafe");
     formatted_address := VUndefined; formatted_phone_number := VNull;
     website := VStr []; rating := VNum 0; user_ratings_total := VNum 0;
     photos := VUndefined |}.

(** The commands that issue a request to the provider. *)
Definition is_request (c : Cmd) : bool :=
  match c with
  | TextSearch _ | GetDetails _ | NextPage _ => true
  | _ => false
  end.

Definition requests_issued (cs : list Cmd) : list Cmd :=
  List.filter is_request cs.

(** A signed-in page showing the search form with [q] typed in. *)
Definition at_search_form (q : jsstring) (sdk : bool) : World :=
  with_st (fun s => set_query q (set_isAuthenticated true s))
    (fresh 0 ∅ sdk).

(** Sample data: a summary as the text search returns it, the detail
    record of the same place, and a pagination object with a further page. *)
Definition cafe_summary : Place :=
  {| place_id := VStr (lit "p1"); name := VStr (lit "Cafe One");
     formatted_address := VStr (lit "1 Main St"); formatted_phone_number := VUndefined;
     website := VUndefined; rating := VNum (9 # 2);
     user_ratings_total := VUndefined; photos := VUndefined |}.

Definition cafe_details : Place :=
  {| place_id := VUndefined; name := VStr (lit "Cafe One");
     formatted_address := VStr (lit "1 Main St");
     formatted_phone_number := VStr (lit "021-111");
     website := VStr (lit "https://cafe.example"); rating := VNum (9 # 2);
     user_ratings_total := VNum 12; photos := VObj 0 |}.

Definition more_pages : Pagination := {| pag_id := 1; hasNextPage := true |}.

Definition REQUEST_DENIED : jsstring := lit "REQUEST_DENIED".

(** The page just after a search for "Coffee Karachi" was submitted. *)
Definition searching : World :=
  run_cmds (handleSearch (at_search_form (lit "Coffee Karachi") true))
    (at_search_form (lit "Coffee Karachi") true).

(** A visit: sign in, search, receive one summary and a further page. *)
Definition visit_events : list Event :=
  [ChangeEnteredKey SECRET_KEY; SubmitLogin;
   ChangeQuery (lit "Coffee Karachi"); SubmitSearch;
   PageReply 0 [cafe_summary] PlacesServiceStatus_OK (Some more_pages)].

Definition after_first_page : World :=
  default (fresh 0 ∅ true) (run (boot 0 ∅ true) visit_events).

(** The visit goes on: the detail lookup fails, the user presses Load More
    and the timer fires two seconds later. *)
Definition loading_more : World :=
  default (fresh 0 ∅ true)
    (run after_first_page
       [DetailsReply 0 cafe_details REQUEST_DENIED; ClickLoadMore;
        Tick 2000; TimerFires 0]).

(** A stored session that expires at time 1000. *)
Definition stored_session : gmap jsstring Session :=
  {[ session_item := {| key := SECRET_KEY; expiry := 1000 |} ]}.

(** Timer identifiers are handed out in increasing order: every pending
    timer was numbered before [next_tid]. *)
Definition timers_fresh (w : World) : Prop :=
  Forall (fun t => (tid t < next_tid w)%nat) (timers w).

(** The timer numbered [id], while pending, is due at [D] and runs [f]. *)
Definition timer_pinned (id : nat) (D : Z) (f : Thunk) (w : World) : Prop :=
  (id < next_tid w)%nat
  /\ Forall (fun t => tid t = id -> due t = D /\ thunk t = f) (timers w).

(** A world the page can be in: reached from a page load by some events. *)
Definition reachable (w : World) : Prop :=
  exists now ls sdk evs, run (boot now ls sdk) evs = Some w.

(** The second search of the visit: back to the form, a new query. *)
Definition second_search : list Event :=
  [ClickBack; ChangeQuery (lit "Tea Lahore"); SubmitSearch].

(** The part of [civil_from_days] that depends only on the day within the
    400-year era: the year within the era (400 for January and February of
    the era's last year), the month and the day. *)
Definition era_date (doe : Z) : Z * Z * Z :=
  let yoe := (doe - doe / 1460 + doe / 36524 - doe / 146096) / 365 in
  let doy := doe - (365 * yoe + yoe / 4 - yoe / 100) in
  let mp := (5 * doy + 2) / 153 in
  let d := doy - (153 * mp + 2) / 5 + 1 in
  let m := if mp <? 10 then mp + 3 else mp - 9 in
  (yoe + (if m <=? 2 then 1 else 0), m, d).

(** The time values whose UTC year is 0000..9999. *)
Definition year_0000 : Z := -62167219200000.
Definition year_10000 : Z := 253402300800000.

(** The ten characters YYYY-MM-DD of a calendar date. *)
Definition ymd (date : Z * Z * Z) : jsstring :=
  let '(y, m, d) := date in
  JsDate.decimal 4 y ++ lit "-" ++ JsDate.decimal 2 m ++ lit "-"
  ++ JsDate.decimal 2 d.

(** ** The rendered page *)

(** [SearchSection] (lines 516-545): the input and the submit button. *)
Record SearchSectionView := {
  input_value : jsstring;
  input_disabled : bool;
  submit_disabled : bool;
  submit_label : jsstring
}.

(** The Load More button of [ResultsSection] (lines 592-596). *)
Record LoadMoreButton := { lm_disabled : bool; lm_label : jsstring }.

(** The block shown when [results.length > 0] (lines 580-599): one card
    per result, in order, the Download Excel button, and the Load More
    button when [hasMore]. *)
Record ResultsGrid := {
  cards : list Place;
  load_more : option LoadMoreButton
}.

(** [ResultsSection] (lines 548-608). *)
Record ResultsSectionView := {
  heading_query : jsstring;
  error_alert : option jsstring;
  spinner : bool;
  grid : option ResultsGrid;
  empty_message : bool
}.

(** What [App] returns (lines 462-512); the footer is on both app screens. *)
Inductive View :=
| LoginScreen (key_input : jsstring)
| SearchScreen (v : SearchSectionView)
| ResultsScreen (v : ResultsSectionView).

Definition render_search (s : State) : SearchSectionView :=
  {| input_value := query s; input_disabled := loading s;
     submit_disabled := loading s;
     submit_label := if loading s then lit "Searching..." else lit "Search Now" |}.

Definition render_results (s : State) : ResultsSectionView :=
  {| heading_query := query s;
     error_alert := if truthy (VStr (error s)) then Some (error s) else None;
     spinner := loading s;
     grid :=
       if nonempty (results s)
       then Some {| cards := results s;
                    load_more :=
                      match nextPage s with
                      | Some _ =>
                          Some {| lm_disabled := loading s;
                                  lm_label := if loading s then lit "Loading..."
                                              else lit "Load More" |}
                      | None => None
                      end |}
       else None;
     empty_message :=
       negb (loading s) && negb (nonempty (results s))
       && negb (truthy (VStr (error s))) |}.

Definition render (s : State) : View :=
  if negb (isAuthenticated s) then LoginScreen (enteredKey s)
  else match activeTab s with
       | TabSearch => SearchScreen (render_search s)
       | TabResults => ResultsScreen (render_results s)
       end.

(** ** Notions used by the properties of whole visits *)

(** The lookups of a page, added to those in flight. *)
Definition add_detail_reqs (l : list DetailsReq) (w : World) : World :=
  {| st := st w; serviceRef := serviceRef w; sdk_loaded := sdk_loaded w; sdk_fault := sdk_fault w;
     clock := clock w; storage := storage w; page_reqs := page_reqs w;
     detail_reqs := detail_reqs w ++ l; timers := timers w;
     next_tid := next_tid w; alerts := alerts w; downloads := downloads w |}.

(** The continuation [placesCallback] stores for a [pagination] argument. *)
Definition continuation_of (pagination : option Pagination)
    : option Continuation :=
  match pagination with
  | Some p => if hasNextPage p then Some (DelayedNextPage p) else None
  | None => None
  end.

Definition is_submit (ev : Event) : bool :=
  match ev with SubmitSearch => true | _ => false end.

(** The summaries delivered by the successful page replies of a visit. *)
Fixpoint delivered (evs : list Event) : nat :=
  match evs with
  | [] => O
  | PageReply _ res status _ :: rest =>
      ((if is_OK status then length res else O) + delivered rest)%nat
  | _ :: rest => delivered rest
  end.

Definition continues (c : Continuation) : bool :=
  match c with DelayedNextPage p => hasNextPage p end.

Definition thunk_continues (f : Thunk) : bool :=
  match f with CallNextPage p => hasNextPage p end.

Definition req_continues (r : PageReq) : bool :=
  match r with ReqTextSearch _ => true | ReqNextPage p => hasNextPage p end.

Definition is_text_search (r : PageReq) : bool :=
  match r with ReqTextSearch _ => true | ReqNextPage _ => false end.

(** What holds of the page throughout a visit. *)
Record visit_inv (w : World) : Prop := {
  inv_locked :
    isAuthenticated (st w) = false ->
    page_reqs w = [] /\ detail_reqs w = [] /\ timers w = []
    /\ results (st w) = [] /\ downloads w = [] /\ nextPage (st w) = None;
  inv_single : (length (page_reqs w) + length (timers w) <= 1)%nat;
  inv_busy :
    (0 < length (page_reqs w) + length (timers w))%nat ->
    loading (st w) = true;
  inv_search_tab :
    Forall (fun r => is_text_search r = true -> activeTab (st w) = TabSearch)
      (page_reqs w);
  inv_service :
    serviceRef w = None ->
    page_reqs w = [] /\ detail_reqs w = [] /\ timers w = []
    /\ nextPage (st w) = None;
  inv_lookups :
    Forall (fun r => r = details_request (req_place r)) (detail_reqs w);
  inv_continues :
    from_option continues true (nextPage (st w)) = true
    /\ Forall (fun t => thunk_continues (thunk t) = true) (timers w)
    /\ Forall (fun r => req_continues r = true) (page_reqs w);
  inv_due : Forall (fun t => due t <= clock w + 2000) (timers w)
}.

(** More sample worlds of the visit. *)
Definition login_and_submit : list Event :=
  [ChangeEnteredKey SECRET_KEY; SubmitLogin;
   ChangeQuery (lit "Coffee Karachi"); SubmitSearch].

Definition awaiting_first_page : World :=
  default (fresh 0 ∅ true) (run (boot 0 ∅ true) login_and_submit).

Definition press_load_more : list Event :=
  [DetailsReply 0 cafe_details REQUEST_DENIED; ClickLoadMore].

Definition load_more_pressed : World :=
  default (fresh 0 ∅ true) (run after_first_page press_load_more).

Definition wrong_guess : list Event :=
  [ChangeEnteredKey (lit "ONDULEX2024"); SubmitLogin].

Definition still_locked : World :=
  default (fresh 0 ∅ true) (run (boot 0 ∅ true) wrong_guess).

Definition invalid_key_message : jsstring :=
  10060%N :: lit " Invalid key. Please try again.".

(** The next-page call fails and the user presses Load More again. *)
Definition retry_events : list Event :=
  [PageReply 0 [] REQUEST_DENIED None; ClickLoadMore; Tick 2000;
   TimerFires 1].

Definition retrying : World :=
  default (fresh 0 ∅ true) (run loading_more retry_events).

(** ** Export: the rows *)

Lemma missing_not_truthy v : missing v = true -> truthy v = false.
Proof. destruct v; simpl; congruence. Qed.

Lemma or_else_exported src dflt :
  truthy dflt = true -> exported src dflt (or_else src dflt).
Proof.
  intros Hd. unfold exported, or_else.
  destruct (truthy src) eqn:Hs; repeat split; try congruence.
  intros Hm. apply missing_not_truthy in Hm. congruence.
Qed.

Lemma export_row_ok item : row_ok item (export_row item).
Proof.
  unfold row_ok, export_row.
  do 6 eexists. split; [reflexivity |].
  repeat split; apply or_else_exported; reflexivity.
Qed.

(** C1, as stated, fails: a rating of 0 is present in the source record
    and is exported as "N/A", not as the source value. *)
Lemma export_row_zero_rating_defaulted :
  missing (rating unrated_place) = false
  /\ export_row unrated_place <> spec_export_row unrated_place
  /\ export_row unrated_place !! 4%nat = Some (lit "Rating", NA).
Proof. repeat split. discriminate. Qed.

(** C1 (amended): for every result list, the sheet handed to the serializer
    has one row per result, in order; each row has exactly the six columns
    Name, Address, Phone, Website, Rating, Total Reviews in this order; a
    cell is the source value when that value is truthy and the default
    ("N/A", or "0" for the review count) otherwise, in particular when the
    source is missing; no cell is undefined, null or the empty string. *)
Theorem downloadExcel_rows (w : World) :
  exists d,
    downloadExcel w = [SaveAs d]
    /\ Forall2 row_ok (results (st w)) (sheet_rows d).
Proof.
  eexists. split; [reflexivity |]. simpl.
  induction (results (st w)) as [| item l IH]; simpl; constructor.
  - apply export_row_ok.
  - exact IH.
Qed.

(** ** Running command lists *)

Lemma run_cmds_app cs1 cs2 w :
  run_cmds (cs1 ++ cs2) w = run_cmds cs2 (run_cmds cs1 w).
Proof. unfold run_cmds. apply fold_left_app. Qed.

Lemma run_cmds_cons c cs w :
  run_cmds (c :: cs) w = run_cmds cs (exec c w).
Proof. reflexivity. Qed.

Lemma is_OK_false status :
  status <> PlacesServiceStatus_OK -> is_OK status = false.
Proof. intros H. unfold is_OK. apply bool_decide_eq_false. exact H. Qed.

Lemma is_OK_true : is_OK PlacesServiceStatus_OK = true.
Proof. reflexivity. Qed.

(** ** loadMore without a continuation *)

(** C8: with no continuation stored, [loadMore] performs no command at
    all: no request, no timer, and the world (result list, loading flag,
    error message, continuation included) is the same afterwards. *)
Theorem loadMore_without_continuation (w : World) :
  nextPage (st w) = None ->
  loadMore w = [] /\ run_cmds (loadMore w) w = w.
Proof.
  intros H. unfold loadMore. rewrite H. split; reflexivity.
Qed.

Lemma loadMore_without_continuation_witness :
  loadMore (fresh 0 ∅ true) = []
  /\ run_cmds (loadMore (fresh 0 ∅ true)) (fresh 0 ∅ true) = fresh 0 ∅ true.
Proof. apply (loadMore_without_continuation (fresh 0 ∅ true)). reflexivity. Defined.

(** ** Submitting a search *)

(** C3, as stated, fails: with a non-blank query but the provider SDK not
    loaded, the reset is performed and no search request is issued. *)
Lemma handleSearch_without_sdk_issues_no_request :
  let w := at_search_form (lit "Coffee Karachi") false in
  trim (query (st w)) <> []
  /\ requests_issued (handleSearch w) = []
  /\ page_reqs (run_cmds (handleSearch w) w) = [].
Proof. repeat split. discriminate. Qed.

(** C3 (amended): for a query that is non-empty after trimming,
    [handleSearch] first sets loading, clears the error, the results and
    the continuation, in this order; then, when the provider SDK is loaded
    and throws nothing, it issues exactly one text search for the query as
    typed; when the SDK is missing, or is defined but one of its calls
    throws, it issues no request, reports the error caught (the SDK-missing
    message, or the message of the error thrown, or "An error occurred" when
    that message is empty) and sets loading false. For a query that is empty
    or white space only it does nothing: no request, no error, the world
    unchanged. *)
Theorem handleSearch_resets_then_searches (w : World) :
  let w' := run_cmds (handleSearch w) w in
  if nonempty (trim (query (st w))) then
    exists tail,
      handleSearch w
      = [SetLoading true; SetError []; SetResultsTo []; SetNextPage None]
        ++ tail
      /\ results (st w') = [] /\ nextPage (st w') = None
      /\ (if sdk_loaded w then
            match sdk_fault w with
            | None =>
                tail = [NewPlacesService; TextSearch (query (st w))]
                /\ requests_issued (handleSearch w)
                   = [TextSearch (query (st w))]
                /\ page_reqs w' = page_reqs w ++ [ReqTextSearch (query (st w))]
                /\ loading (st w') = true /\ error (st w') = []
            | Some fault =>
                requests_issued (handleSearch w) = []
                /\ page_reqs w' = page_reqs w
                /\ loading (st w') = false
                /\ error (st w')
                   = (if nonempty (fault_message fault)
                      then fault_message fault
                      else lit "An error occurred")
            end
          else
            requests_issued (handleSearch w) = []
            /\ page_reqs w' = page_reqs w
            /\ loading (st w') = false
            /\ error (st w') = sdk_error_message)
  else handleSearch w = [] /\ w' = w.
Proof.
  unfold handleSearch. simpl.
  destruct (trim (query (st w))) as [| c r] eqn:Ht; simpl.
  - split; reflexivity.
  - eexists. split; [reflexivity |].
    destruct (sdk_loaded w); [| simpl; repeat split; reflexivity].
    destruct (sdk_fault w) as [[at_ message] |];
      [| simpl; repeat split; reflexivity].
    destruct at_; simpl; repeat split;
      unfold caught_message; destruct message; reflexivity.
Qed.

Example handleSearch_incomplete_sdk :
  let fault := {| fault_at := InConstructors;
                  fault_message := lit "google.maps.places is undefined" |} in
  let w := load_faulty_sdk fault (at_search_form (lit "Coffee Karachi") false) in
  requests_issued (handleSearch w) = []
  /\ error (st (run_cmds (handleSearch w) w))
     = lit "google.maps.places is undefined"
  /\ loading (st (run_cmds (handleSearch w) w)) = false
  /\ serviceRef (run_cmds (handleSearch w) w) = None.
Proof. repeat split. Qed.

Example handleSearch_whitespace_only :
  handleSearch (at_search_form (lit "   ") true) = [].
Proof. reflexivity. Qed.

Example handleSearch_coffee :
  page_reqs searching = [ReqTextSearch (lit "Coffee Karachi")]
  /\ loading (st searching) = true.
Proof. split; reflexivity. Qed.

(** ** Provider failures on a page *)

Lemma placesCallback_failure res status pagination w :
  status <> PlacesServiceStatus_OK ->
  run_cmds (placesCallback res status pagination) w
  = with_st (fun s =>
      set_loading false
        (set_error (lit "Google Places request failed: " ++ status) s)) w.
Proof.
  intros H. unfold placesCallback. rewrite (is_OK_false _ H). reflexivity.
Qed.

(** C5: when the provider answers the text search with a status other
    than OK, the error message becomes "Google Places request failed: "
    followed by that status, the result list, empty since the reset, stays empty,
    loading becomes false, and nothing is issued again: the answered request
    leaves the pending ones, no request and no timer is added. *)
Theorem search_failure_reported (w : World) (i : nat) (q : jsstring)
    (res : list Place) (status : jsstring) (pagination : option Pagination) :
  status <> PlacesServiceStatus_OK ->
  page_reqs w !! i = Some (ReqTextSearch q) ->
  results (st w) = [] ->
  exists w',
    step w (PageReply i res status pagination) = Some w'
    /\ error (st w') = lit "Google Places request failed: " ++ status
    /\ results (st w') = []
    /\ loading (st w') = false
    /\ page_reqs w' = delete i (page_reqs w)
    /\ detail_reqs w' = detail_reqs w
    /\ timers w' = timers w.
Proof.
  intros HS Hreq Hres. eexists. split.
  - unfold step. rewrite Hreq. rewrite (placesCallback_failure _ _ _ _ HS).
    reflexivity.
  - simpl. repeat split. exact Hres.
Qed.

(** C10: a page callback with a failure status, whichever request it
    answers (the text search or a next-page call), leaves the result list
    and the stored continuation as they were; of the component state only
    the error message (overwritten) and the loading flag (false) change. *)
Theorem page_failure_keeps_results_and_continuation (w : World) (i : nat)
    (res : list Place) (status : jsstring) (pagination : option Pagination) :
  status <> PlacesServiceStatus_OK ->
  is_Some (page_reqs w !! i) ->
  exists w',
    step w (PageReply i res status pagination) = Some w'
    /\ results (st w') = results (st w)
    /\ nextPage (st w') = nextPage (st w)
    /\ error (st w') = lit "Google Places request failed: " ++ status
    /\ loading (st w') = false
    /\ activeTab (st w') = activeTab (st w)
    /\ query (st w') = query (st w)
    /\ isAuthenticated (st w') = isAuthenticated (st w)
    /\ enteredKey (st w') = enteredKey (st w).
Proof.
  intros HS [r Hreq]. eexists. split.
  - unfold step. rewrite Hreq. rewrite (placesCallback_failure _ _ _ _ HS).
    reflexivity.
  - simpl. repeat split.
Qed.

Lemma search_failure_reported_witness :
  exists w',
    step searching (PageReply 0 [] REQUEST_DENIED None) = Some w'
    /\ error (st w') = lit "Google Places request failed: REQUEST_DENIED"
    /\ results (st w') = []
    /\ loading (st w') = false
    /\ page_reqs w' = []
    /\ detail_reqs w' = []
    /\ timers w' = [].
Proof.
  apply (search_failure_reported searching 0 (lit "Coffee Karachi") []
           REQUEST_DENIED None); [discriminate | reflexivity | reflexivity].
Defined.

Lemma page_failure_keeps_results_and_continuation_witness :
  exists w',
    step loading_more (PageReply 0 [] REQUEST_DENIED None) = Some w'
    /\ results (st w') = [cafe_summary]
    /\ nextPage (st w') = Some (DelayedNextPage more_pages)
    /\ error (st w') = lit "Google Places request failed: REQUEST_DENIED"
    /\ loading (st w') = false
    /\ activeTab (st w') = TabResults
    /\ query (st w') = lit "Coffee Karachi"
    /\ isAuthenticated (st w') = true
    /\ enteredKey (st w') = SECRET_KEY.
Proof.
  apply (page_failure_keeps_results_and_continuation loading_more 0 []
           REQUEST_DENIED None); [discriminate | vm_compute; eauto].
Defined.

(** ** Detail lookups *)

Lemma run_cmds_fanout res w :
  detail_reqs
    (run_cmds (map (fun place => GetDetails (details_request place)) res) w)
  = detail_reqs w ++ map details_request res
  /\ st (run_cmds (map (fun place => GetDetails (details_request place)) res) w)
     = st w.
Proof.
  revert w. induction res as [| place res IH]; intros w.
  - simpl. split; [symmetry; apply app_nil_r | reflexivity].
  - cbn [map]. rewrite run_cmds_cons.
    destruct (IH (exec (GetDetails (details_request place)) w)) as [H1 H2].
    split.
    + rewrite H1. simpl. rewrite <- app_assoc. reflexivity.
    + rewrite H2. reflexivity.
Qed.

Lemma placesCallback_fanout res pagination w :
  detail_reqs (run_cmds (placesCallback res PlacesServiceStatus_OK pagination) w)
  = detail_reqs w ++ map details_request res.
Proof.
  unfold placesCallback. rewrite is_OK_true.
  rewrite !run_cmds_app.
  destruct (run_cmds_fanout res w) as [H _].
  simpl. destruct pagination as [p |]; [destruct (hasNextPage p) |];
    simpl; exact H.
Qed.

(** C4: a successful page issues one detail lookup per summary, each
    remembering its summary. When the lookup of a summary answers with a
    failure status, the summary record itself is appended to the result
    list (nothing is dropped), the error message and the alerts are
    untouched, and the other lookups in flight stay in flight. *)
Theorem failed_lookup_keeps_summary (w : World) (i : nat) (r : DetailsReq)
    (details : Place) (status : jsstring) :
  status <> PlacesServiceStatus_OK ->
  detail_reqs w !! i = Some r ->
  (forall res pagination w0,
      detail_reqs
        (run_cmds (placesCallback res PlacesServiceStatus_OK pagination) w0)
      = detail_reqs w0 ++ map details_request res)
  /\ exists w',
      step w (DetailsReply i details status) = Some w'
      /\ results (st w') = results (st w) ++ [req_place r]
      /\ error (st w') = error (st w)
      /\ alerts w' = alerts w
      /\ detail_reqs w' = delete i (detail_reqs w)
      /\ page_reqs w' = page_reqs w
      /\ loading (st w') = loading (st w).
Proof.
  intros HS Hreq. split.
  - intros. apply placesCallback_fanout.
  - eexists. split.
    + unfold step. rewrite Hreq. unfold detailsCallback.
      rewrite (is_OK_false _ HS). reflexivity.
    + simpl. repeat split.
Qed.

Lemma failed_lookup_keeps_summary_witness :
  detail_reqs after_first_page !! 0%nat = Some (details_request cafe_summary)
  /\ exists w',
      step after_first_page (DetailsReply 0 cafe_details REQUEST_DENIED)
      = Some w'
      /\ results (st w') = [cafe_summary]
      /\ error (st w') = []
      /\ alerts w' = []
      /\ detail_reqs w' = []
      /\ page_reqs w' = []
      /\ loading (st w') = false.
Proof.
  split; [reflexivity |].
  apply (failed_lookup_keeps_summary after_first_page 0
           (details_request cafe_summary) cafe_details REQUEST_DENIED);
    [discriminate | reflexivity].
Defined.

(** ** Restoring the session *)

(** C7: for every session record found in local storage when the page
    loads: if its expiry is at or before the current time, the user stays
    unauthenticated and the record is removed (the rest of the storage is
    kept); if its expiry is later than the current time, the user is
    authenticated and the storage is unchanged. *)
Theorem restoreSession (now : Z) (ls : gmap jsstring Session)
    (sessionData : Session) (sdk : bool) :
  ls !! session_item = Some sessionData ->
  let w := boot now ls sdk in
  if now <? expiry sessionData
  then isAuthenticated (st w) = true /\ storage w = ls
  else isAuthenticated (st w) = false
       /\ storage w = delete session_item ls
       /\ storage w !! session_item = None.
Proof.
  intros H. unfold boot, checkSession. simpl. rewrite H.
  destruct (now <? expiry sessionData); simpl.
  - split; reflexivity.
  - repeat split. apply lookup_delete_eq.
Qed.

Lemma restoreSession_witness :
  (isAuthenticated (st (boot 1000 stored_session true)) = false
   /\ storage (boot 1000 stored_session true) = delete session_item stored_session
   /\ storage (boot 1000 stored_session true) !! session_item = None)
  /\ (isAuthenticated (st (boot 999 stored_session true)) = true
      /\ storage (boot 999 stored_session true) = stored_session).
Proof.
  split.
  - apply (restoreSession 1000 stored_session
             {| key := SECRET_KEY; expiry := 1000 |} true).
    reflexivity.
  - apply (restoreSession 999 stored_session
             {| key := SECRET_KEY; expiry := 1000 |} true).
    reflexivity.
Defined.

(** ** Late detail callbacks *)

Lemma details_reply_always_appends w i details status :
  step w (DetailsReply i details status)
  = (fun r =>
       run_cmds
         [SetResultsAppend (if is_OK status then details else req_place r)]
         (drop_detail_req i w))
    <$> detail_reqs w !! i.
Proof.
  unfold step, detailsCallback.
  destruct (detail_reqs w !! i) as [r |]; simpl; [| reflexivity].
  destruct (is_OK status); reflexivity.
Qed.

(** C9: there is an execution in which the lookup of a summary of the
    first search ("Coffee Karachi") is still in flight when a second search
    ("Tea Lahore") is submitted; the second submission empties the result
    list and leaves the lookup in flight; the lookup's callback then arrives
    and its record becomes an entry of the result list of the second
    search, whose own request has not even been answered. A lookup in
    flight carries only the request and its summary, and its callback
    appends in whatever state the component is. *)
Theorem stale_details_reach_new_search :
  (exists w1 w2 w3,
      run (boot 0 ∅ true) visit_events = Some w1
      /\ query (st w1) = lit "Coffee Karachi"
      /\ detail_reqs w1 = [details_request cafe_summary]
      /\ run w1 second_search = Some w2
      /\ query (st w2) = lit "Tea Lahore"
      /\ results (st w2) = []
      /\ page_reqs w2 = [ReqTextSearch (lit "Tea Lahore")]
      /\ detail_reqs w2 = [details_request cafe_summary]
      /\ step w2 (DetailsReply 0 cafe_details PlacesServiceStatus_OK) = Some w3
      /\ results (st w3) = [cafe_details]
      /\ query (st w3) = lit "Tea Lahore"
      /\ page_reqs w3 = [ReqTextSearch (lit "Tea Lahore")])
  /\ (forall w i details status,
         step w (DetailsReply i details status)
         = (fun r =>
              run_cmds
                [SetResultsAppend
                   (if is_OK status then details else req_place r)]
                (drop_detail_req i w))
           <$> detail_reqs w !! i).
Proof.
  split.
  - do 3 eexists.
    split; [vm_compute; reflexivity |].
    split; [reflexivity |]. split; [reflexivity |].
    split; [vm_compute; reflexivity |].
    repeat split.
  - apply details_reply_always_appends.
Qed.

(** ** Timers *)

Lemma Forall_list_filter {A} (P : A -> Prop) (f : A -> bool) (l : list A) :
  Forall P l -> Forall P (List.filter f l).
Proof.
  induction 1 as [| x l Hx Hl IH]; simpl; [constructor |].
  destruct (f x); [constructor; assumption | assumption].
Qed.

Lemma find_has_tid id l t :
  List.find (has_tid id) l = Some t -> In t l /\ tid t = id.
Proof.
  intros H. apply find_some in H. destruct H as [Hin Hid]. split; [exact Hin |].
  unfold has_tid in Hid. apply Nat.eqb_eq. exact Hid.
Qed.

Section Pinned.

Variables (id : nat) (D : Z) (f : Thunk).

Lemma exec_pinned c w :
  timer_pinned id D f w -> timer_pinned id D f (exec c w).
Proof.
  unfold timer_pinned. intros [Hlt Hall].
  destruct c; simpl; try (split; assumption).
  split; [lia |].
  apply Forall_app. split; [exact Hall |].
  constructor; [| constructor]. simpl. intros Heq. lia.
Qed.

Lemma run_cmds_pinned cs w :
  timer_pinned id D f w -> timer_pinned id D f (run_cmds cs w).
Proof.
  revert w. induction cs as [| c cs IH]; intros w H; [exact H |].
  rewrite run_cmds_cons. apply IH. apply exec_pinned. exact H.
Qed.

Lemma step_pinned w ev w' :
  step w ev = Some w' -> timer_pinned id D f w -> timer_pinned id D f w'.
Proof.
  intros Hstep H.
  destruct ev; simpl in Hstep;
    repeat match type of Hstep with
      | (if ?b then _ else _) = Some _ => destruct b
      | match ?o with Some _ => _ | None => _ end = Some _ =>
          destruct o eqn:?
      end;
    try discriminate; injection Hstep as <-;
    try (apply run_cmds_pinned); try exact H;
    destruct H as [Hlt Hall]; split; simpl; try assumption.
  apply Forall_list_filter. exact Hall.
Qed.

Lemma run_pinned evs w w' :
  run w evs = Some w' -> timer_pinned id D f w -> timer_pinned id D f w'.
Proof.
  revert w. induction evs as [| ev evs IH]; intros w Hrun H; simpl in Hrun.
  - injection Hrun as <-. exact H.
  - destruct (step w ev) as [w1 |] eqn:Hstep; [| discriminate].
    apply (IH w1 Hrun). apply (step_pinned _ _ _ Hstep H).
Qed.

Lemma fire_pinned w w' :
  timer_pinned id D f w ->
  step w (TimerFires id) = Some w' ->
  D <= clock w /\ w' = run_cmds (thunk_body f) (drop_timer id w).
Proof.
  intros [_ Hall] Hstep. simpl in Hstep.
  destruct (List.find (has_tid id) (timers w)) as [t |] eqn:Hfind;
    [| discriminate].
  apply find_has_tid in Hfind. destruct Hfind as [Hin Hid].
  rewrite Forall_forall in Hall. apply list_elem_of_In in Hin.
  destruct (Hall t Hin Hid) as [Hdue Hthunk].
  destruct (due t <=? clock w) eqn:Hle; [| discriminate].
  injection Hstep as <-. rewrite Hthunk. split; [lia | reflexivity].
Qed.

End Pinned.

(** Every world the page can reach numbers its timers below [next_tid]. *)

Lemma exec_fresh c w : timers_fresh w -> timers_fresh (exec c w).
Proof.
  unfold timers_fresh. intros H.
  destruct c; simpl; try exact H.
  apply Forall_app. split.
  - eapply Forall_impl; [exact H |]. simpl. intros t Ht. lia.
  - constructor; [simpl; lia | constructor].
Qed.

Lemma run_cmds_fresh cs w : timers_fresh w -> timers_fresh (run_cmds cs w).
Proof.
  revert w. induction cs as [| c cs IH]; intros w H; [exact H |].
  rewrite run_cmds_cons. apply IH. apply exec_fresh. exact H.
Qed.

Lemma step_fresh w ev w' :
  step w ev = Some w' -> timers_fresh w -> timers_fresh w'.
Proof.
  intros Hstep H.
  destruct ev; simpl in Hstep;
    repeat match type of Hstep with
      | (if ?b then _ else _) = Some _ => destruct b
      | match ?o with Some _ => _ | None => _ end = Some _ =>
          destruct o eqn:?
      end;
    try discriminate; injection Hstep as <-;
    try (apply run_cmds_fresh); try exact H.
  unfold timers_fresh in *. simpl. apply Forall_list_filter. exact H.
Qed.

Lemma reachable_timers_fresh w : reachable w -> timers_fresh w.
Proof.
  intros (now & ls & sdk & evs & Hrun).
  assert (H0 : timers_fresh (boot now ls sdk)).
  { unfold boot. apply run_cmds_fresh. constructor. }
  revert Hrun H0. generalize (boot now ls sdk) as w0.
  induction evs as [| ev evs IH]; intros w0 Hrun H0; simpl in Hrun.
  - injection Hrun as <-. exact H0.
  - destruct (step w0 ev) as [w1 |] eqn:Hstep; [| discriminate].
    apply (IH w1 Hrun). apply (step_fresh _ _ _ Hstep H0).
Qed.

(** ** loadMore with a continuation *)

(** C2: when [loadMore] runs with a continuation stored, its first
    command sets loading true, it issues no request itself, and it arms one
    timer due 2000 ms after the current time whose function is the
    next-page call. In every execution that follows, that timer fires, and
    so the next-page call is made, only at a time at least 2000 ms after
    the invocation. *)
Theorem loadMore_delays_nextPage (w : World) (c : Continuation) :
  nextPage (st w) = Some c ->
  timers_fresh w ->
  let w1 := run_cmds (loadMore w) w in
  exists p rest,
    c = DelayedNextPage p
    /\ loadMore w = SetLoading true :: rest
    /\ loading (st w1) = true
    /\ requests_issued (loadMore w) = []
    /\ page_reqs w1 = page_reqs w
    /\ timers w1
       = timers w ++ [{| tid := next_tid w; due := clock w + 2000;
                         thunk := CallNextPage p |}]
    /\ forall evs w2 w3,
         run w1 evs = Some w2 ->
         step w2 (TimerFires (next_tid w)) = Some w3 ->
         clock w + 2000 <= clock w2
         /\ page_reqs w3 = page_reqs w2 ++ [ReqNextPage p].
Proof.
  intros Hc Hfresh w1. subst w1. unfold loadMore. rewrite Hc.
  destruct c as [p]. exists p. eexists.
  split; [reflexivity |]. split; [reflexivity |].
  split; [reflexivity |]. split; [reflexivity |].
  split; [reflexivity |]. split; [reflexivity |].
  intros evs w2 w3 Hrun Hfire.
  assert (Hpin : timer_pinned (next_tid w) (clock w + 2000) (CallNextPage p)
                   (run_cmds (SetLoading true
                              :: continuation_body (DelayedNextPage p)) w)).
  { split; simpl; [lia |].
    apply Forall_app. split.
    - unfold timers_fresh in Hfresh.
      eapply Forall_impl; [exact Hfresh |].
      simpl. intros t Hlt Heq. lia.
    - constructor; [| constructor]. simpl. intros _. split; reflexivity. }
  pose proof (run_pinned _ _ _ _ _ _ Hrun Hpin) as Hpin2.
  destruct (fire_pinned _ _ _ _ _ Hpin2 Hfire) as [Hle ->].
  split; [exact Hle | reflexivity].
Qed.

Lemma loadMore_delays_nextPage_witness :
  let w := after_first_page in
  let w1 := run_cmds (loadMore w) w in
  exists p rest,
    DelayedNextPage more_pages = DelayedNextPage p
    /\ loadMore w = SetLoading true :: rest
    /\ loading (st w1) = true
    /\ requests_issued (loadMore w) = []
    /\ page_reqs w1 = page_reqs w
    /\ timers w1
       = timers w ++ [{| tid := next_tid w; due := clock w + 2000;
                         thunk := CallNextPage p |}]
    /\ forall evs w2 w3,
         run w1 evs = Some w2 ->
         step w2 (TimerFires (next_tid w)) = Some w3 ->
         clock w + 2000 <= clock w2
         /\ page_reqs w3 = page_reqs w2 ++ [ReqNextPage p].
Proof.
  apply (loadMore_delays_nextPage after_first_page
           (DelayedNextPage more_pages)); [reflexivity | constructor].
Defined.

(** ** The calendar *)

Import JsDate.

Lemma is_leap_spec y :
  is_leap y = true <-> (y mod 4 = 0 /\ y mod 100 <> 0) \/ y mod 400 = 0.
Proof.
  unfold is_leap.
  rewrite orb_true_iff, andb_true_iff, negb_true_iff, !Z.eqb_eq, Z.eqb_neq.
  reflexivity.
Qed.

Lemma days_in_month_cases y m :
  1 <= m <= 12 ->
  (m = 2 /\ ((is_leap y = true /\ days_in_month y m = 29) \/ (is_leap y = false /\ days_in_month y m = 28)))
  \/ ((m = 4 \/ m = 6 \/ m = 9 \/ m = 11) /\ days_in_month y m = 30)
  \/ ((m = 1 \/ m = 3 \/ m = 5 \/ m = 7 \/ m = 8 \/ m = 10 \/ m = 12) /\ days_in_month y m = 31).
Proof.
  intros H. unfold days_in_month.
  assert (m = 1 \/ m = 2 \/ m = 3 \/ m = 4 \/ m = 5 \/ m = 6 \/ m = 7 \/ m = 8 \/ m = 9 \/ m = 10 \/ m = 11 \/ m = 12) as Hm by lia.
  repeat (destruct Hm as [-> | Hm]); try subst m; simpl; try tauto.
  destruct (is_leap y); tauto.
Qed.

Lemma era_date_valid doe :
  0 <= doe < 146097 ->
  let '(y0, m, d) := era_date doe in
  0 <= y0 <= 400 /\ 1 <= m <= 12 /\ 1 <= d <= days_in_month y0 m
  /\ days_from_civil y0 m d = doe - 719468
  /\ (y0 = 400 <-> 146037 <= doe).
Proof.
  intros H. unfold era_date. cbv zeta.
  set (yoe := (doe - doe / 1460 + doe / 36524 - doe / 146096) / 365).
  set (doy := doe - (365 * yoe + yoe / 4 - yoe / 100)).
  set (mp := (5 * doy + 2) / 153).
  set (d := doy - (153 * mp + 2) / 5 + 1).
  set (m := if mp <? 10 then mp + 3 else mp - 9).
  assert (Hy : 0 <= yoe <= 399 /\ 0 <= doy <= 365).
  { subst doy yoe. Z.to_euclidean_division_equations; lia. }
  assert (Hmp : 0 <= mp <= 11) by (subst mp; Z.to_euclidean_division_equations; lia).
  assert (Hd : 1 <= d <= 31) by (subst d mp; Z.to_euclidean_division_equations; lia).
  assert (Hm : 1 <= m <= 12 /\ (mp < 10 /\ m = mp + 3 \/ 10 <= mp /\ m = mp - 9)).
  { subst m. destruct (Z.ltb_spec mp 10); lia. }
  assert (Hleap : doy = 365 -> (yoe + 1) mod 4 = 0 /\ ((yoe + 1) mod 100 <> 0 \/ (yoe + 1) mod 400 = 0)).
  { subst doy yoe. intros. Z.to_euclidean_division_equations; lia. }
  assert (Hdoy : (153 * mp + 2) / 5 <= doy < (153 * (mp + 1) + 2) / 5).
  { subst mp. Z.to_euclidean_division_equations; lia. }
  assert (Hdoe : doe = yoe * 365 + yoe / 4 - yoe / 100 + doy) by (subst doy; lia).
  assert (H400 : yoe = 399 /\ doy >= 306 <-> 146037 <= doe).
  { subst doy yoe. Z.to_euclidean_division_equations; lia. }
  assert (Hdeq : d = doy - (153 * mp + 2) / 5 + 1) by reflexivity.
  assert (Hmp10 : 10 <= mp <-> 306 <= doy).
  { subst mp. Z.to_euclidean_division_equations; lia. }
  clearbody yoe doy mp d m.
  assert (Hy0 : (if m <=? 2 then yoe + (if m <=? 2 then 1 else 0) - 1
                 else yoe + (if m <=? 2 then 1 else 0)) = yoe)
    by (destruct (m <=? 2); lia).
  split; [destruct (m <=? 2); lia |].
  split; [lia |].
  split; [| split].
  - split; [lia |].
    destruct (days_in_month_cases (yoe + (if m <=? 2 then 1 else 0)) m
                ltac:(lia))
      as [[Hm2 [[Hl ->] | [Hl ->]]] | [[Hm30 ->] | [Hm31 ->]]].
    + Z.to_euclidean_division_equations; lia.
    + assert (Hn : ~ ((yoe + 1) mod 4 = 0
                      /\ ((yoe + 1) mod 100 <> 0 \/ (yoe + 1) mod 400 = 0))).
      { intros Hc. subst m. simpl in Hl.
        assert (is_leap (yoe + 1) = true) as Ht
          by (apply is_leap_spec; tauto).
        congruence. }
      assert (doy <> 365) by tauto.
      Z.to_euclidean_division_equations; lia.
    + Z.to_euclidean_division_equations; lia.
    + Z.to_euclidean_division_equations; lia.
  - unfold days_from_civil. cbv zeta. rewrite Hy0.
    replace (yoe / 400) with 0 by (symmetry; apply Z.div_small; lia).
    replace (if 2 <? m then m - 3 else m + 9) with mp
      by (destruct (Z.ltb_spec 2 m); lia).
    replace (yoe - 0 * 400) with yoe by lia.
    lia.
  - destruct (Z.leb_spec m 2); lia.
Qed.

Lemma civil_from_days_era days :
  civil_from_days days
  = let z := days + 719468 in
    let '(y0, m, d) := era_date (z mod 146097) in
    (y0 + z / 146097 * 400, m, d).
Proof.
  unfold civil_from_days, era_date. cbv zeta.
  replace (days + 719468 - (days + 719468) / 146097 * 146097)
    with ((days + 719468) mod 146097)
    by (rewrite Z.mod_eq by lia; lia).
  f_equal. f_equal. lia.
Qed.

Lemma is_leap_era y e : is_leap (y + e * 400) = is_leap y.
Proof.
  unfold is_leap.
  replace ((y + e * 400) mod 4) with (y mod 4)
    by (replace (y + e * 400) with (y + (e * 100) * 4) by lia;
        symmetry; apply Z_mod_plus_full).
  replace ((y + e * 400) mod 100) with (y mod 100)
    by (replace (y + e * 400) with (y + (e * 4) * 100) by lia;
        symmetry; apply Z_mod_plus_full).
  replace ((y + e * 400) mod 400) with (y mod 400)
    by (symmetry; apply Z_mod_plus_full).
  reflexivity.
Qed.

Lemma days_in_month_era y e m :
  days_in_month (y + e * 400) m = days_in_month y m.
Proof. unfold days_in_month. rewrite is_leap_era. reflexivity. Qed.

Lemma days_from_civil_era y e m d :
  days_from_civil (y + e * 400) m d = days_from_civil y m d + e * 146097.
Proof.
  unfold days_from_civil. cbv zeta.
  destruct (m <=? 2).
  - replace (y + e * 400 - 1) with (y - 1 + e * 400) by lia.
    rewrite Z.div_add by lia.
    replace (y - 1 + e * 400 - ((y - 1) / 400 + e) * 400)
      with (y - 1 - (y - 1) / 400 * 400) by lia.
    lia.
  - rewrite Z.div_add by lia.
    replace (y + e * 400 - (y / 400 + e) * 400)
      with (y - y / 400 * 400) by lia.
    lia.
Qed.

(** [civil_from_days] yields a real calendar date, the one whose day number
    is the argument. *)
Lemma civil_from_days_valid days :
  let '(y, m, d) := civil_from_days days in
  1 <= m <= 12 /\ 1 <= d <= days_in_month y m
  /\ days_from_civil y m d = days.
Proof.
  rewrite civil_from_days_era. cbv zeta.
  set (z := days + 719468).
  assert (Hmod : 0 <= z mod 146097 < 146097) by (apply Z.mod_pos_bound; lia).
  pose proof (era_date_valid _ Hmod) as Hok.
  destruct (era_date (z mod 146097)) as [[y0 m] d].
  destruct Hok as (Hy0 & Hm & Hd & Hdays & _).
  rewrite days_in_month_era, days_from_civil_era.
  assert (Hz : z = 146097 * (z / 146097) + z mod 146097)
    by (apply Z.div_mod; lia).
  repeat split; lia.
Qed.

Lemma civil_from_days_year days :
  -719528 <= days < 2932897 ->
  0 <= fst (fst (civil_from_days days)) <= 9999.
Proof.
  intros Hd. rewrite civil_from_days_era. cbv zeta.
  set (z := days + 719468).
  assert (Hmod : 0 <= z mod 146097 < 146097) by (apply Z.mod_pos_bound; lia).
  pose proof (era_date_valid _ Hmod) as Hok.
  destruct (era_date (z mod 146097)) as [[y0 m] d].
  destruct Hok as (Hy0 & _ & _ & _ & H400).
  assert (Hz : z = 146097 * (z / 146097) + z mod 146097)
    by (apply Z.div_mod; lia).
  cbn [fst]. lia.
Qed.

(** ** Export: the file name *)

Lemma sanitizedQuery_spec q : sanitizedQuery q = spec_sanitize q.
Proof.
  unfold sanitizedQuery, replace_class_g, spec_sanitize.
  induction q as [| c q IH]; cbn in *; [reflexivity |].
  destruct (in_class c); cbn; f_equal; exact IH.
Qed.

Lemma spec_sanitize_class q :
  Forall (fun c => in_class c = true) (spec_sanitize q).
Proof.
  unfold spec_sanitize. induction q as [| c q IH]; simpl; constructor.
  - destruct (in_class c) eqn:Hc; [exact Hc | reflexivity].
  - exact IH.
Qed.

Lemma spec_sanitize_length q : length (spec_sanitize q) = length q.
Proof. unfold spec_sanitize. apply length_map. Qed.

Lemma digit_class r : 0 <= r < 10 -> in_class (digit r) = true.
Proof.
  intros H.
  assert (r = 0 \/ r = 1 \/ r = 2 \/ r = 3 \/ r = 4 \/ r = 5 \/ r = 6
          \/ r = 7 \/ r = 8 \/ r = 9) as Hr by lia.
  repeat (destruct Hr as [-> | Hr]; [reflexivity |]). subst r. reflexivity.
Qed.

Lemma decimal_class k n : Forall (fun c => in_class c = true) (decimal k n).
Proof.
  revert n. induction k as [| k IH]; intros n; simpl; [constructor |].
  apply Forall_app. split; [apply IH |].
  constructor; [| constructor].
  apply digit_class. apply Z.mod_pos_bound. lia.
Qed.

Lemma decimal_length k n : length (decimal k n) = k.
Proof.
  revert n. induction k as [| k IH]; intros n; simpl; [reflexivity |].
  rewrite length_app, IH. simpl. lia.
Qed.

Lemma ymd_length date : length (ymd date) = 10%nat.
Proof.
  destruct date as [[y m] d]. unfold ymd.
  rewrite !length_app, !decimal_length. reflexivity.
Qed.

Lemma ymd_class date : Forall (fun c => in_class c = true) (ymd date).
Proof.
  destruct date as [[y m] d]. unfold ymd.
  apply Forall_app; split; [apply decimal_class |].
  apply Forall_app; split; [repeat constructor |].
  apply Forall_app; split; [apply decimal_class |].
  apply Forall_app; split; [repeat constructor | apply decimal_class].
Qed.

Lemma Day_range now :
  year_0000 <= now < year_10000 -> -719528 <= Day now < 2932897.
Proof.
  unfold year_0000, year_10000, Day, msPerDay. intros H.
  pose proof (Z.div_mod now 86400000 ltac:(lia)) as Hdm.
  pose proof (Z.mod_pos_bound now 86400000 ltac:(lia)) as Hmod.
  lia.
Qed.

Lemma firstn_length_app {A} (a b : list A) : firstn (length a) (a ++ b) = a.
Proof. induction a as [| x a IH]; simpl; [reflexivity | f_equal; exact IH]. Qed.

Lemma toISOString_date now :
  year_0000 <= now < year_10000 ->
  slice0 10 (toISOString now) = ymd (civil_from_days (Day now)).
Proof.
  intros H. apply Day_range in H.
  pose proof (civil_from_days_year _ H) as Hy.
  unfold toISOString, slice0.
  destruct (civil_from_days (Day now)) as [[y m] d]. cbn [fst] in Hy.
  unfold year_string.
  replace ((0 <=? y) && (y <=? 9999)) with true
    by (symmetry; apply andb_true_iff; split; apply Z.leb_le; lia).
  set (time_part := lit "T" ++ _).
  transitivity (firstn (length (ymd (y, m, d))) (ymd (y, m, d) ++ time_part)).
  - rewrite ymd_length. reflexivity.
  - apply firstn_length_app.
Qed.

Example sanitizedQuery_example :
  sanitizedQuery (lit "Cafe & Bar, Karachi-2_x")
  = lit "Cafe___Bar__Karachi-2_x".
Proof. reflexivity. Qed.

Example toISOString_example :
  toISOString 951782400000 = lit "2000-02-29T00:00:00.000Z"
  /\ toISOString (-1) = lit "1969-12-31T23:59:59.999Z"
  /\ slice0 10 (toISOString year_10000) = lit "+010000-01".
Proof. repeat split; vm_compute; reflexivity. Qed.

(** C6: for any query string, at any time whose UTC year has four digits,
    [downloadExcel] saves exactly one file, and the name of that file is
    "leads_", the query with every code unit outside [A-Za-z0-9_-] replaced
    by "_", "_", the current UTC date as YYYY-MM-DD, and ".xlsx"; the
    sanitized query has the length of the query, the part between "leads_"
    and ".xlsx" has only characters of [A-Za-z0-9_-], and the date is a
    real calendar date, the one of the current day. *)
Theorem export_filename_format (w : World) :
  year_0000 <= clock w < year_10000 ->
  let q := query (st w) in
  let date := civil_from_days (Day (clock w)) in
  let '(y, m, d) := date in
  exists file,
    downloadExcel w = [SaveAs file]
    /\ downloads (run_cmds (downloadExcel w) w) = downloads w ++ [file]
    /\ filename file
       = lit "leads_" ++ spec_sanitize q ++ lit "_" ++ ymd date ++ lit ".xlsx"
    /\ export_filename q (clock w) = filename file
    /\ sanitizedQuery q = spec_sanitize q
    /\ length (spec_sanitize q) = length q
    /\ Forall (fun c => in_class c = true)
         (spec_sanitize q ++ lit "_" ++ ymd date)
    /\ length (ymd date) = 10%nat
    /\ 0 <= y <= 9999 /\ 1 <= m <= 12 /\ 1 <= d <= days_in_month y m
    /\ days_from_civil y m d = Day (clock w).
Proof.
  intros H q date.
  pose proof (toISOString_date (clock w) H) as Hiso.
  pose proof (civil_from_days_year _ (Day_range _ H)) as Hy.
  pose proof (civil_from_days_valid (Day (clock w))) as Hv.
  pose proof (ymd_class date) as Hc.
  pose proof (ymd_length date) as Hl.
  subst date. destruct (civil_from_days (Day (clock w))) as [[y m] d].
  simpl in Hy. destruct Hv as (Hm & Hd & Hdays).
  eexists. split; [reflexivity |]. split; [reflexivity |].
  cbn [filename].
  split.
  { unfold export_filename. rewrite sanitizedQuery_spec, Hiso. reflexivity. }
  split; [reflexivity |].
  split; [apply sanitizedQuery_spec |].
  split; [apply spec_sanitize_length |].
  split.
  { apply Forall_app. split; [apply spec_sanitize_class |].
    apply Forall_app. split; [repeat constructor | exact Hc]. }
  split; [exact Hl |].
  repeat split; lia.
Qed.

Lemma export_filename_format_witness :
  exists file,
    downloadExcel
      (with_st (set_query (lit "Coffee Karachi"))
         (fresh 1793588400123 ∅ true))
    = [SaveAs file]
    /\ filename file = lit "leads_Coffee_Karachi_2026-11-02.xlsx".
Proof.
  pose proof (export_filename_format
                (with_st (set_query (lit "Coffee Karachi"))
                   (fresh 1793588400123 ∅ true))
                ltac:(unfold year_0000, year_10000; simpl; lia)) as H.
  cbv zeta in H.
  destruct (civil_from_days
              (Day (clock (with_st (set_query (lit "Coffee Karachi"))
                             (fresh 1793588400123 ∅ true)))))
    as [[y m] d] eqn:E.
  destruct H as (file & Hcmd & _ & Hname & _).
  exists file. split; [exact Hcmd |]. rewrite Hname.
  vm_compute in E. injection E as <- <- <-. reflexivity.
Defined.

(** ** The effect of a page callback *)

Lemma add_detail_reqs_nil w : add_detail_reqs [] w = w.
Proof. destruct w. unfold add_detail_reqs. simpl. rewrite app_nil_r. reflexivity. Qed.

Lemma add_detail_reqs_cons r l w :
  add_detail_reqs l (exec (GetDetails r) w) = add_detail_reqs (r :: l) w.
Proof.
  unfold add_detail_reqs. simpl. rewrite <- app_assoc. reflexivity.
Qed.

Lemma run_cmds_GetDetails res w :
  run_cmds (map (fun place => GetDetails (details_request place)) res) w
  = add_detail_reqs (map details_request res) w.
Proof.
  revert w. induction res as [| place res IH]; intros w.
  - simpl. symmetry. apply add_detail_reqs_nil.
  - cbn [map]. rewrite run_cmds_cons, IH. apply add_detail_reqs_cons.
Qed.

Lemma is_OK_eq status : is_OK status = true -> status = PlacesServiceStatus_OK.
Proof. unfold is_OK. apply bool_decide_eq_true. Qed.

Lemma placesCallback_success res pagination w :
  run_cmds (placesCallback res PlacesServiceStatus_OK pagination) w
  = with_st (fun s =>
      set_loading false
        (set_nextPage (continuation_of pagination)
           (set_activeTab TabResults s)))
      (add_detail_reqs (map details_request res) w).
Proof.
  unfold placesCallback. rewrite is_OK_true.
  rewrite !run_cmds_app, run_cmds_GetDetails.
  destruct pagination as [p |]; [destruct (hasNextPage p) eqn:Hp |];
    simpl; rewrite ?Hp; reflexivity.
Qed.

(** ** The invariant of a visit *)

Lemma length_le_1_lookup {A} (l : list A) (extra : nat) i x :
  (length l + extra <= 1)%nat -> l !! i = Some x ->
  l = [x] /\ i = O /\ extra = O.
Proof.
  intros Hlen Hi. destruct l as [| y [| z l]]; simpl in *; try lia.
  - discriminate.
  - destruct i as [| i]; simpl in Hi; [| discriminate].
    injection Hi as ->. repeat split; lia.
Qed.

Lemma find_singleton_timer id t0 t l (extra : nat) :
  (extra + length (t0 :: l) <= 1)%nat ->
  List.find (has_tid id) (t0 :: l) = Some t ->
  l = [] /\ t = t0 /\ extra = O
  /\ List.filter (fun t => negb (has_tid id t)) (t0 :: l) = [].
Proof.
  intros Hlen Hfind. destruct l as [| t1 l]; simpl in *; [| lia].
  destruct (has_tid id t0) eqn:Hid; [| discriminate].
  injection Hfind as <-. repeat split; try lia.
Qed.

Lemma boot_inv now ls sdk : visit_inv (boot now ls sdk).
Proof.
  unfold boot, checkSession. simpl.
  destruct (ls !! session_item) as [sess |];
    [destruct (now <? expiry sess) |]; simpl;
    constructor; simpl; intros; repeat split; try constructor; try lia;
    try discriminate.
Qed.

Ltac use_inv :=
  repeat match goal with
    | H : ?a = ?a -> _ |- _ => specialize (H eq_refl)
    | H : ?P -> _, HP : ?P |- _ => specialize (H HP)
    | H : true = false -> _ |- _ => clear H
    | H : (0 < 0)%nat -> _ |- _ => clear H
    | H : _ /\ _ |- _ => destruct H
    end.

Ltac rew_inv :=
  repeat match goal with
    | H : page_reqs _ = _ |- _ => progress (rewrite H in * )
    | H : timers _ = _ |- _ => progress (rewrite H in * )
    | H : detail_reqs _ = _ |- _ => progress (rewrite H in * )
    | H : activeTab _ = _ |- _ => progress (rewrite H in * )
    | H : loading _ = _ |- _ => progress (rewrite H in * )
    | H : nextPage _ = _ |- _ => progress (rewrite H in * )
    | H : isAuthenticated _ = _ |- _ => progress (rewrite H in * )
    end.

Ltac close_inv :=
  constructor; simpl in *; intros; use_inv; rew_inv; use_inv;
  repeat match goal with
    | |- _ /\ _ => split
    end;
  subst; simpl in *;
  try assumption; try discriminate; try reflexivity; try lia;
  try congruence;
  try (repeat constructor; simpl; auto; fail); try (auto; fail).

Lemma step_inv w ev w' : step w ev = Some w' -> visit_inv w -> visit_inv w'.
Proof.
  intros Hstep [H1 H2 H3 H4 H5 H6 H7 H8].
  destruct ev; simpl in Hstep.
  - (* ChangeEnteredKey *)
    destruct (isAuthenticated (st w)) eqn:Hau; [discriminate |].
    injection Hstep as <-. close_inv.
  - (* SubmitLogin *)
    destruct (isAuthenticated (st w)) eqn:Hau; [discriminate |].
    destruct (nonempty (enteredKey (st w))); [| discriminate].
    injection Hstep as <-. unfold handleLogin.
    destruct (bool_decide (enteredKey (st w) = SECRET_KEY)); close_inv.
  - (* ChangeQuery *)
    destruct (search_form_enabled (st w)); [| discriminate].
    injection Hstep as <-. close_inv.
  - (* SubmitSearch *)
    unfold search_form_enabled in Hstep.
    destruct (isAuthenticated (st w)) eqn:Hau; [| discriminate].
    destruct (activeTab (st w)) eqn:Htab; [| discriminate].
    destruct (loading (st w)) eqn:Hld; [discriminate |].
    simpl in Hstep.
    destruct (nonempty (query (st w))); [| discriminate].
    injection Hstep as <-.
    assert (Hnone : page_reqs w = [] /\ timers w = []).
    { destruct (page_reqs w), (timers w); simpl in *; try (split; reflexivity);
        exfalso; assert (false = true) by (apply H3; lia); discriminate. }
    destruct Hnone as [Hp Ht].
    unfold handleSearch.
    destruct (truthy (VStr (trim (query (st w))))); simpl;
      [| close_inv].
    destruct (sdk_loaded w); [| close_inv].
    destruct (sdk_fault w) as [[[|] message] |]; close_inv.
  - (* ClickBack *)
    destruct (results_shown (st w)); [| discriminate].
    injection Hstep as <-. close_inv.
    apply Forall_forall. intros; reflexivity.
  - (* ClickLoadMore *)
    unfold results_shown in Hstep.
    destruct (isAuthenticated (st w)) eqn:Hau; [| discriminate].
    destruct (activeTab (st w)) eqn:Htab; [discriminate |].
    destruct (nonempty (results (st w))); [| discriminate].
    destruct (nextPage (st w)) as [[p] |] eqn:Hnp; [| discriminate].
    destruct (loading (st w)) eqn:Hld; [discriminate |].
    simpl in Hstep. injection Hstep as <-.
    assert (Hnone : page_reqs w = [] /\ timers w = []).
    { destruct (page_reqs w), (timers w); simpl in *; try (split; reflexivity);
        exfalso; assert (false = true) by (apply H3; lia); discriminate. }
    destruct Hnone as [Hp Ht].
    unfold loadMore. rewrite Hnp. close_inv.
    constructor; [simpl; lia | constructor].
  - (* ClickDownload *)
    destruct (results_shown (st w) && nonempty (results (st w))) eqn:Hg;
      [| discriminate].
    injection Hstep as <-. unfold results_shown in Hg.
    destruct (isAuthenticated (st w)) eqn:Hau; [| discriminate].
    close_inv.
  - (* PageReply *)
    destruct (page_reqs w !! i) as [r |] eqn:Hi; [| discriminate].
    injection Hstep as <-.
    destruct (length_le_1_lookup _ _ _ _ H2 Hi) as (Hp & -> & Ht).
    apply length_zero_iff_nil in Ht.
    destruct (isAuthenticated (st w)) eqn:Hau;
      [| destruct (H1 eq_refl) as [Hc _]; congruence].
    destruct (serviceRef w) as [ref |] eqn:Href;
      [| destruct (H5 eq_refl) as [Hc _]; congruence].
    destruct (is_OK status) eqn:Hok.
    + apply is_OK_eq in Hok. subst status. rewrite placesCallback_success.
      close_inv.
      * apply Forall_app. split; [assumption |].
        apply Forall_forall. intros r0 Hr0.
        apply list_elem_of_fmap in Hr0. destruct Hr0 as (place & -> & _).
        reflexivity.
      * unfold continuation_of.
        destruct pagination as [p |]; [| reflexivity].
        destruct (hasNextPage p) eqn:Hnext; simpl; [exact Hnext | reflexivity].
    + rewrite placesCallback_failure
        by (intros ->; rewrite is_OK_true in Hok; discriminate).
      close_inv.
  - (* DetailsReply *)
    destruct (detail_reqs w !! i) as [r |] eqn:Hi; [| discriminate].
    injection Hstep as <-.
    destruct (isAuthenticated (st w)) eqn:Hau;
      [| destruct (H1 eq_refl) as (_ & Hc & _); rewrite Hc in Hi;
         discriminate].
    assert (Hdel : Forall (fun r => r = details_request (req_place r))
                     (delete i (detail_reqs w))) by (apply Forall_delete; exact H6).
    assert (Href : serviceRef w = None -> False).
    { intros Hn. destruct (H5 Hn) as (_ & Hc & _). rewrite Hc in Hi.
      discriminate. }
    unfold detailsCallback. destruct (is_OK status); close_inv.
  - (* TimerFires *)
    destruct (List.find (has_tid id) (timers w)) as [t |] eqn:Hfind;
      [| discriminate].
    destruct (due t <=? clock w); [| discriminate].
    injection Hstep as <-.
    destruct (timers w) as [| t0 l] eqn:Ht; [discriminate |].
    assert (Hlen : (length (page_reqs w) + length (t0 :: l) <= 1)%nat)
      by exact H2.
    rewrite Nat.add_comm in Hlen. rewrite Nat.add_comm in Hlen.
    destruct (find_singleton_timer id t0 t l (length (page_reqs w))
                ltac:(simpl in *; lia) Hfind) as (-> & -> & Hp & Hfilter).
    apply length_zero_iff_nil in Hp.
    destruct (isAuthenticated (st w)) eqn:Hau;
      [| destruct (H1 eq_refl) as (_ & _ & Hc & _); discriminate].
    destruct (serviceRef w) as [ref |] eqn:Href;
      [| destruct (H5 eq_refl) as (_ & _ & Hc & _); discriminate].
    destruct t0 as [tid0 due0 [p]].
    assert (Hnext : hasNextPage p = true).
    { destruct H7 as (_ & Hth & _).
      apply Forall_cons in Hth. destruct Hth as [Hth _]. exact Hth. }
    assert (Hw : run_cmds (thunk_body (CallNextPage p)) (drop_timer id w)
                 = exec (NextPage p) (drop_timer id w)) by reflexivity.
    cbn [thunk]. rewrite Hw. clear Hw.
    constructor; simpl; rewrite ?Ht, ?Hfilter, ?Hp; simpl; intros;
      use_inv; repeat split; try assumption; try discriminate; try lia;
      try (repeat constructor; simpl; auto; discriminate);
      try congruence.
    apply H3. rewrite Hp. simpl. lia.
  - (* Tick *)
    destruct (0 <=? dt) eqn:Hdt; [| discriminate].
    injection Hstep as <-. close_inv.
    eapply Forall_impl; [exact H8 |]. simpl. intros t Ht. lia.
  - (* SdkLoads *)
    injection Hstep as <-. close_inv.
  - (* SdkLoadsFaulty *)
    injection Hstep as <-. close_inv.
Qed.

Lemma run_inv evs w w' : run w evs = Some w' -> visit_inv w -> visit_inv w'.
Proof.
  revert w. induction evs as [| ev evs IH]; intros w Hrun H; simpl in Hrun.
  - injection Hrun as <-. exact H.
  - destruct (step w ev) as [w1 |] eqn:Hstep; [| discriminate].
    apply (IH w1 Hrun). apply (step_inv _ _ _ Hstep H).
Qed.

Lemma visit_invariant now ls sdk evs w :
  run (boot now ls sdk) evs = Some w -> visit_inv w.
Proof. intros H. apply (run_inv _ _ _ H). apply boot_inv. Qed.

(** ** What a step changes *)

Ltac step_guards Hstep :=
  repeat match type of Hstep with
    | (if ?b then _ else _) = Some _ => destruct b eqn:?
    | match ?o with Some _ => _ | None => _ end = Some _ => destruct o eqn:?
    end;
  try discriminate; injection Hstep as <-.

Lemma is_OK_false_ne status :
  is_OK status = false -> status <> PlacesServiceStatus_OK.
Proof. intros H ->. rewrite is_OK_true in H. discriminate. Qed.

(** The component state and the storage after a page callback. *)
Lemma placesCallback_frame res status pagination w :
  let w' := run_cmds (placesCallback res status pagination) w in
  isAuthenticated (st w') = isAuthenticated (st w)
  /\ results (st w') = results (st w)
  /\ query (st w') = query (st w)
  /\ enteredKey (st w') = enteredKey (st w)
  /\ storage w' = storage w
  /\ timers w' = timers w /\ page_reqs w' = page_reqs w
  /\ detail_reqs w'
     = detail_reqs w
       ++ (if is_OK status then map details_request res else []).
Proof.
  destruct (is_OK status) eqn:Hok; cbv zeta.
  - apply is_OK_eq in Hok. subst status. rewrite placesCallback_success.
    simpl. repeat split.
  - rewrite (placesCallback_failure _ _ _ _ (is_OK_false_ne _ Hok)).
    simpl. rewrite app_nil_r. repeat split.
Qed.

Lemma step_keeps_authenticated w ev w' :
  step w ev = Some w' ->
  isAuthenticated (st w) = true -> isAuthenticated (st w') = true.
Proof.
  intros Hstep Hau. destruct ev; simpl in Hstep.
  - rewrite Hau in Hstep. discriminate.
  - rewrite Hau in Hstep. discriminate.
  - step_guards Hstep. exact Hau.
  - step_guards Hstep. unfold handleSearch.
    destruct (truthy (VStr (trim (query (st w))))); simpl; [| exact Hau].
    destruct (sdk_loaded w); [| exact Hau].
    destruct (sdk_fault w) as [[[|] message] |]; exact Hau.
  - step_guards Hstep. exact Hau.
  - step_guards Hstep. unfold loadMore.
    destruct (nextPage (st w)) as [[p] |]; exact Hau.
  - step_guards Hstep. exact Hau.
  - step_guards Hstep.
    destruct (placesCallback_frame res status pagination (drop_page_req i w))
      as (-> & _). exact Hau.
  - step_guards Hstep. unfold detailsCallback.
    destruct (is_OK status); exact Hau.
  - step_guards Hstep. destruct (thunk t) as [p]. exact Hau.
  - step_guards Hstep. exact Hau.
  - step_guards Hstep. exact Hau.
  - step_guards Hstep. exact Hau.
Qed.

Lemma step_storage_frame w ev w' k :
  step w ev = Some w' -> k <> session_item ->
  storage w' !! k = storage w !! k.
Proof.
  intros Hstep Hk. destruct ev; simpl in Hstep.
  - step_guards Hstep. reflexivity.
  - step_guards Hstep. unfold handleLogin.
    destruct (bool_decide (enteredKey (st w) = SECRET_KEY)); simpl;
      [| reflexivity].
    apply lookup_insert_ne. congruence.
  - step_guards Hstep. reflexivity.
  - step_guards Hstep. unfold handleSearch.
    destruct (truthy (VStr (trim (query (st w))))); simpl; [| reflexivity].
    destruct (sdk_loaded w); [| reflexivity].
    destruct (sdk_fault w) as [[[|] message] |]; reflexivity.
  - step_guards Hstep. reflexivity.
  - step_guards Hstep. unfold loadMore.
    destruct (nextPage (st w)) as [[p] |]; reflexivity.
  - step_guards Hstep. reflexivity.
  - step_guards Hstep.
    destruct (placesCallback_frame res status pagination (drop_page_req i w))
      as (_ & _ & _ & _ & -> & _). reflexivity.
  - step_guards Hstep. unfold detailsCallback.
    destruct (is_OK status); reflexivity.
  - step_guards Hstep. destruct (thunk t) as [p]. reflexivity.
  - step_guards Hstep. reflexivity.
  - step_guards Hstep. reflexivity.
  - step_guards Hstep. reflexivity.
Qed.

Lemma step_accounting w ev w' :
  step w ev = Some w' -> is_submit ev = false ->
  exists l,
    results (st w') = results (st w) ++ l
    /\ (length l + length (detail_reqs w')
        = length (detail_reqs w) + delivered [ev])%nat.
Proof.
  intros Hstep Hns. destruct ev; simpl in Hstep; try discriminate.
  - step_guards Hstep. exists []. simpl. rewrite app_nil_r. split; [reflexivity | lia].
  - step_guards Hstep. exists []. unfold handleLogin.
    destruct (bool_decide (enteredKey (st w) = SECRET_KEY)); simpl;
      rewrite app_nil_r; split; (reflexivity || lia).
  - step_guards Hstep. exists []. simpl. rewrite app_nil_r. split; [reflexivity | lia].
  - step_guards Hstep. exists []. simpl. rewrite app_nil_r. split; [reflexivity | lia].
  - step_guards Hstep. exists []. unfold loadMore.
    destruct (nextPage (st w)) as [[p] |]; simpl; rewrite app_nil_r;
      split; (reflexivity || lia).
  - step_guards Hstep. exists []. simpl. rewrite app_nil_r. split; [reflexivity | lia].
  - step_guards Hstep. exists [].
    destruct (placesCallback_frame res status pagination (drop_page_req i w))
      as (_ & -> & _ & _ & _ & _ & _ & ->).
    simpl. rewrite app_nil_r. split; [reflexivity |].
    rewrite length_app. destruct (is_OK status); simpl;
      rewrite ?length_map; lia.
  - step_guards Hstep. unfold detailsCallback.
    match goal with H : detail_reqs w !! i = Some _ |- _ =>
      pose proof (lookup_lt_Some _ _ _ H) as Hlt end.
    pose proof (length_delete (detail_reqs w) i ltac:(eauto)) as Hdel.
    destruct (is_OK status); eexists; simpl; (split; [reflexivity |]);
      simpl; lia.
  - step_guards Hstep. exists []. destruct (thunk t) as [p]. simpl.
    rewrite app_nil_r. split; [reflexivity | lia].
  - step_guards Hstep. exists []. simpl. rewrite app_nil_r. split; [reflexivity | lia].
  - step_guards Hstep. exists []. simpl. rewrite app_nil_r. split; [reflexivity | lia].
  - step_guards Hstep. exists []. simpl. rewrite app_nil_r. split; [reflexivity | lia].
Qed.

Lemma delivered_cons ev evs :
  delivered (ev :: evs) = (delivered [ev] + delivered evs)%nat.
Proof. destruct ev; simpl; lia. Qed.

(** ** The access key *)

(** X1: a correct key authenticates and stores the record
    [{key, expiry = now + 24 h}]; a page reloaded with that storage is
    authenticated again at any time before the expiry, and at or after the
    expiry it is not and the record is removed. *)
Theorem login_then_reload (w : World) (now' : Z) (sdk' : bool) :
  enteredKey (st w) = SECRET_KEY ->
  let w1 := run_cmds (handleLogin w) w in
  let w2 := boot now' (storage w1) sdk' in
  isAuthenticated (st w1) = true
  /\ storage w1 !! session_item
     = Some {| key := SECRET_KEY; expiry := clock w + 86400000 |}
  /\ if now' <? clock w + 86400000
     then isAuthenticated (st w2) = true /\ storage w2 = storage w1
     else isAuthenticated (st w2) = false
          /\ storage w2 !! session_item = None.
Proof.
  intros Hkey. unfold handleLogin.
  rewrite (bool_decide_eq_true_2 _ Hkey). simpl.
  split; [reflexivity |].
  split; [apply lookup_insert_eq |].
  unfold boot, checkSession. simpl. rewrite lookup_insert_eq. simpl.
  change (clock w + SESSION_DURATION) with (clock w + 86400000).
  destruct (now' <? clock w + 86400000); simpl.
  - split; reflexivity.
  - split; [reflexivity | apply lookup_delete_eq].
Qed.

Lemma login_then_reload_witness :
  isAuthenticated (st (boot 86399999 (storage (run_cmds
      (handleLogin (with_st (set_enteredKey SECRET_KEY) (fresh 0 ∅ true)))
      (with_st (set_enteredKey SECRET_KEY) (fresh 0 ∅ true)))) true)) = true
  /\ isAuthenticated (st (boot 86400000 (storage (run_cmds
      (handleLogin (with_st (set_enteredKey SECRET_KEY) (fresh 0 ∅ true)))
      (with_st (set_enteredKey SECRET_KEY) (fresh 0 ∅ true)))) true)) = false.
Proof.
  split.
  - apply (login_then_reload
             (with_st (set_enteredKey SECRET_KEY) (fresh 0 ∅ true))
             86399999 true eq_refl).
  - apply (login_then_reload
             (with_st (set_enteredKey SECRET_KEY) (fresh 0 ∅ true))
             86400000 true eq_refl).
Defined.

(** X2: a wrong key that is not empty changes nothing but the alert: the
    component state and the storage are as before, the message is shown
    once, and the page still shows the login screen. With the key input
    empty the form is not submitted at all (the input is [required]): the
    handler does not run and no alert is shown. *)
Theorem wrong_key_rejected (w : World) :
  isAuthenticated (st w) = false ->
  enteredKey (st w) <> SECRET_KEY ->
  if nonempty (enteredKey (st w))
  then exists w',
         step w SubmitLogin = Some w'
         /\ st w' = st w
         /\ storage w' = storage w
         /\ alerts w' = alerts w ++ [invalid_key_message]
         /\ page_reqs w' = page_reqs w
         /\ render (st w') = LoginScreen (enteredKey (st w))
  else step w SubmitLogin = None.
Proof.
  intros Hau Hkey. simpl. rewrite Hau.
  destruct (nonempty (enteredKey (st w))); [| reflexivity].
  eexists. split.
  - unfold handleLogin.
    rewrite (bool_decide_eq_false_2 _ Hkey). reflexivity.
  - simpl. repeat split. unfold render. rewrite Hau. reflexivity.
Qed.

Lemma wrong_key_rejected_witness :
  (exists w',
      step (with_st (set_enteredKey (lit "ONDULEX2024")) (fresh 0 ∅ true))
        SubmitLogin = Some w'
      /\ st w'
         = st (with_st (set_enteredKey (lit "ONDULEX2024")) (fresh 0 ∅ true))
      /\ storage w' = ∅
      /\ alerts w' = [invalid_key_message]
      /\ page_reqs w' = []
      /\ render (st w') = LoginScreen (lit "ONDULEX2024"))
  /\ step (fresh 0 ∅ true) SubmitLogin = None.
Proof.
  split.
  - exact (wrong_key_rejected
             (with_st (set_enteredKey (lit "ONDULEX2024")) (fresh 0 ∅ true))
             eq_refl ltac:(discriminate)).
  - exact (wrong_key_rejected (fresh 0 ∅ true) eq_refl ltac:(discriminate)).
Defined.

Lemma run_keeps_authenticated evs w w' :
  run w evs = Some w' ->
  isAuthenticated (st w) = true -> isAuthenticated (st w') = true.
Proof.
  revert w. induction evs as [| ev evs IH]; intros w Hrun H; simpl in Hrun.
  - injection Hrun as <-. exact H.
  - destruct (step w ev) as [w1 |] eqn:Hstep; [| discriminate].
    apply (IH w1 Hrun). apply (step_keeps_authenticated _ _ _ Hstep H).
Qed.

(** X3: there is no way back to the login screen: once the user is
    authenticated, every later state of the visit is authenticated and
    renders an app screen. *)
Theorem authentication_is_permanent (w w' : World) (evs : list Event) :
  run w evs = Some w' ->
  isAuthenticated (st w) = true ->
  isAuthenticated (st w') = true
  /\ forall k, render (st w') <> LoginScreen k.
Proof.
  intros Hrun Hau.
  pose proof (run_keeps_authenticated _ _ _ Hrun Hau) as Hau'.
  split; [exact Hau' |].
  intros k. unfold render. rewrite Hau'. simpl.
  destruct (activeTab (st w')); discriminate.
Qed.

Lemma authentication_is_permanent_witness :
  isAuthenticated (st load_more_pressed) = true
  /\ forall k, render (st load_more_pressed) <> LoginScreen k.
Proof.
  apply (authentication_is_permanent after_first_page load_more_pressed
           press_load_more); vm_compute; reflexivity.
Defined.

(** X4: before the user is authenticated the page has done nothing: no
    request to the provider, no timer, no result, no download. *)
Theorem nothing_before_login (now : Z) (ls : gmap jsstring Session)
    (sdk : bool) (evs : list Event) (w : World) :
  run (boot now ls sdk) evs = Some w ->
  isAuthenticated (st w) = false ->
  page_reqs w = [] /\ detail_reqs w = [] /\ timers w = []
  /\ results (st w) = [] /\ downloads w = []
  /\ render (st w) = LoginScreen (enteredKey (st w)).
Proof.
  intros Hrun Hau.
  destruct (inv_locked _ (visit_invariant _ _ _ _ _ Hrun) Hau)
    as (Hp & Hd & Ht & Hr & Hdl & _).
  repeat split; try assumption.
  unfold render. rewrite Hau. reflexivity.
Qed.

Lemma nothing_before_login_witness :
  page_reqs still_locked = [] /\ detail_reqs still_locked = []
  /\ timers still_locked = [] /\ results (st still_locked) = []
  /\ downloads still_locked = []
  /\ render (st still_locked) = LoginScreen (lit "ONDULEX2024").
Proof.
  apply (nothing_before_login 0 ∅ true wrong_guess still_locked);
    vm_compute; reflexivity.
Defined.

Lemma run_storage_frame evs w w' k :
  run w evs = Some w' -> k <> session_item ->
  storage w' !! k = storage w !! k.
Proof.
  revert w. induction evs as [| ev evs IH]; intros w Hrun Hk; simpl in Hrun.
  - injection Hrun as <-. reflexivity.
  - destruct (step w ev) as [w1 |] eqn:Hstep; [| discriminate].
    rewrite (IH w1 Hrun Hk). apply (step_storage_frame _ _ _ _ Hstep Hk).
Qed.

(** X5: the page touches one storage item only: whatever happens during a
    visit, every item other than "onduleSession" is as it was when the page
    was loaded. *)
Theorem storage_only_session_item (now : Z) (ls : gmap jsstring Session)
    (sdk : bool) (evs : list Event) (w : World) (k : jsstring) :
  run (boot now ls sdk) evs = Some w ->
  k <> session_item ->
  storage w !! k = ls !! k.
Proof.
  intros Hrun Hk. rewrite (run_storage_frame _ _ _ _ Hrun Hk).
  unfold boot, checkSession. simpl.
  destruct (ls !! session_item) as [sess |]; [| reflexivity].
  destruct (now <? expiry sess); simpl; [reflexivity |].
  apply lookup_delete_ne. congruence.
Qed.

Lemma storage_only_session_item_witness :
  storage after_first_page !! lit "theme"
  = (∅ : gmap jsstring Session) !! lit "theme".
Proof.
  apply (storage_only_session_item 0 ∅ true visit_events after_first_page
           (lit "theme")); [vm_compute; reflexivity | discriminate].
Defined.

(** ** One page request at a time *)

(** X6: throughout a visit at most one page-level request is outstanding,
    counting a text search or next-page call awaiting its callback and a
    Load More timer not yet fired; while one is outstanding the loading flag
    is true and the page accepts neither a new search nor another Load
    More. *)
Theorem one_page_request_at_a_time (now : Z) (ls : gmap jsstring Session)
    (sdk : bool) (evs : list Event) (w : World) :
  run (boot now ls sdk) evs = Some w ->
  (length (page_reqs w) + length (timers w) <= 1)%nat
  /\ ((0 < length (page_reqs w) + length (timers w))%nat ->
      loading (st w) = true
      /\ step w SubmitSearch = None
      /\ step w ClickLoadMore = None).
Proof.
  intros Hrun. pose proof (visit_invariant _ _ _ _ _ Hrun) as Hinv.
  split; [apply (inv_single _ Hinv) |].
  intros Hpos. pose proof (inv_busy _ Hinv Hpos) as Hld.
  split; [exact Hld |]. simpl. unfold search_form_enabled. rewrite Hld.
  rewrite !andb_false_r. split; reflexivity.
Qed.

Lemma one_page_request_at_a_time_witness :
  (length (page_reqs load_more_pressed) + length (timers load_more_pressed)
   <= 1)%nat
  /\ ((0 < length (page_reqs load_more_pressed)
           + length (timers load_more_pressed))%nat ->
      loading (st load_more_pressed) = true
      /\ step load_more_pressed SubmitSearch = None
      /\ step load_more_pressed ClickLoadMore = None).
Proof.
  apply (one_page_request_at_a_time 0 ∅ true
           (visit_events ++ press_load_more) load_more_pressed).
  vm_compute. reflexivity.
Defined.

(** X7: when the provider answers a text search with a failure status, the
    error message is stored but the page is showing, and keeps showing, the
    search form, which has no place for the message: the form is enabled
    again and nothing tells the user that the search failed. *)
Theorem failed_search_error_not_shown (now : Z) (ls : gmap jsstring Session)
    (sdk : bool) (evs : list Event) (w : World) (i : nat) (q : jsstring)
    (res : list Place) (status : jsstring) (pagination : option Pagination) :
  run (boot now ls sdk) evs = Some w ->
  page_reqs w !! i = Some (ReqTextSearch q) ->
  status <> PlacesServiceStatus_OK ->
  exists w',
    step w (PageReply i res status pagination) = Some w'
    /\ error (st w') = lit "Google Places request failed: " ++ status
    /\ render (st w')
       = SearchScreen {| input_value := query (st w); input_disabled := false;
                         submit_disabled := false;
                         submit_label := lit "Search Now" |}.
Proof.
  intros Hrun Hi Hst. pose proof (visit_invariant _ _ _ _ _ Hrun) as Hinv.
  assert (Htab : activeTab (st w) = TabSearch).
  { pose proof (inv_search_tab _ Hinv) as Hall.
    rewrite Forall_forall in Hall.
    apply (Hall (ReqTextSearch q)); [| reflexivity].
    apply list_elem_of_lookup. exists i. exact Hi. }
  assert (Hau : isAuthenticated (st w) = true).
  { destruct (isAuthenticated (st w)) eqn:Hau; [reflexivity |].
    destruct (inv_locked _ Hinv Hau) as (Hp & _). rewrite Hp in Hi.
    discriminate. }
  eexists. split.
  - simpl. rewrite Hi. rewrite (placesCallback_failure _ _ _ _ Hst).
    reflexivity.
  - split; [reflexivity |].
    unfold render. simpl. rewrite Hau, Htab. reflexivity.
Qed.

Lemma failed_search_error_not_shown_witness :
  exists w',
    step awaiting_first_page (PageReply 0 [] REQUEST_DENIED None) = Some w'
    /\ error (st w') = lit "Google Places request failed: REQUEST_DENIED"
    /\ render (st w')
       = SearchScreen {| input_value := lit "Coffee Karachi";
                         input_disabled := false; submit_disabled := false;
                         submit_label := lit "Search Now" |}.
Proof.
  apply (failed_search_error_not_shown 0 ∅ true login_and_submit
           awaiting_first_page 0 (lit "Coffee Karachi") [] REQUEST_DENIED None);
    [vm_compute; reflexivity | reflexivity | discriminate].
Defined.

(** X8: a search submitted while the provider SDK is missing stores the
    SDK message, but the page stays on the search form, enabled and without
    the message: the SDK error is not shown either. *)
Theorem sdk_error_not_shown (w w' : World) :
  step w SubmitSearch = Some w' ->
  sdk_loaded w = false ->
  trim (query (st w)) <> [] ->
  error (st w') = sdk_error_message
  /\ page_reqs w' = page_reqs w
  /\ render (st w')
     = SearchScreen {| input_value := query (st w); input_disabled := false;
                       submit_disabled := false;
                       submit_label := lit "Search Now" |}.
Proof.
  intros Hstep Hsdk Hq. simpl in Hstep. unfold search_form_enabled in Hstep.
  destruct (isAuthenticated (st w)) eqn:Hau; [| discriminate].
  destruct (activeTab (st w)) eqn:Htab; [| discriminate].
  destruct (loading (st w)) eqn:Hld; [discriminate |].
  simpl in Hstep.
  destruct (nonempty (query (st w))); [| discriminate].
  injection Hstep as <-.
  unfold handleSearch. rewrite Hsdk.
  destruct (trim (query (st w))) as [| c r]; [congruence |]. simpl.
  repeat split. unfold render. simpl. rewrite Hau, Htab. reflexivity.
Qed.

Lemma sdk_error_not_shown_witness :
  error (st (run_cmds (handleSearch (at_search_form (lit "Coffee Karachi") false))
               (at_search_form (lit "Coffee Karachi") false)))
  = sdk_error_message
  /\ page_reqs (run_cmds (handleSearch (at_search_form (lit "Coffee Karachi") false))
               (at_search_form (lit "Coffee Karachi") false)) = []
  /\ render (st (run_cmds (handleSearch (at_search_form (lit "Coffee Karachi") false))
               (at_search_form (lit "Coffee Karachi") false)))
     = SearchScreen {| input_value := lit "Coffee Karachi";
                       input_disabled := false; submit_disabled := false;
                       submit_label := lit "Search Now" |}.
Proof.
  apply (sdk_error_not_shown (at_search_form (lit "Coffee Karachi") false));
    [reflexivity | reflexivity | discriminate].
Defined.

(** ** The result list between two searches *)

(** X9: as long as no new search is submitted, the result list only grows
    at its end, and no delivered summary is lost or counted twice: the
    entries added plus the lookups in flight at the end equal the lookups in
    flight at the start plus the summaries delivered by the successful page
    callbacks in between. *)
Theorem results_append_only (w w' : World) (evs : list Event) :
  run w evs = Some w' ->
  forallb (fun ev => negb (is_submit ev)) evs = true ->
  exists added,
    results (st w') = results (st w) ++ added
    /\ (length added + length (detail_reqs w')
        = length (detail_reqs w) + delivered evs)%nat.
Proof.
  revert w. induction evs as [| ev evs IH]; intros w Hrun Hns; simpl in Hrun.
  - injection Hrun as <-. exists []. simpl. rewrite app_nil_r.
    split; [reflexivity | lia].
  - destruct (step w ev) as [w1 |] eqn:Hstep; [| discriminate].
    cbn [forallb] in Hns. apply andb_true_iff in Hns. destruct Hns as [Hev Hns].
    apply negb_true_iff in Hev.
    destruct (step_accounting _ _ _ Hstep Hev) as (l1 & Hr1 & Hn1).
    destruct (IH w1 Hrun Hns) as (l2 & Hr2 & Hn2).
    exists (l1 ++ l2). split.
    + rewrite Hr2, Hr1. symmetry. apply app_assoc.
    + rewrite delivered_cons, length_app. lia.
Qed.

Lemma results_append_only_witness :
  exists added,
    results (st load_more_pressed) = results (st awaiting_first_page) ++ added
    /\ (length added + length (detail_reqs load_more_pressed)
        = length (detail_reqs awaiting_first_page)
          + delivered
              (PageReply 0 [cafe_summary] PlacesServiceStatus_OK
                 (Some more_pages) :: press_load_more))%nat.
Proof.
  apply (results_append_only awaiting_first_page load_more_pressed
           (PageReply 0 [cafe_summary] PlacesServiceStatus_OK
              (Some more_pages) :: press_load_more));
    vm_compute; reflexivity.
Defined.

(** ** A successful page *)

(** X10: a page callback with status OK issues one lookup per summary, in
    page order, switches to the results view, sets loading false and
    replaces the stored continuation: it is kept only when the provider
    passes a pagination object that has a next page. It adds no entry to
    the result list itself and does not clear an earlier error message. *)
Theorem successful_page_effect (w : World) (i : nat) (res : list Place)
    (pagination : option Pagination) :
  is_Some (page_reqs w !! i) ->
  exists w',
    step w (PageReply i res PlacesServiceStatus_OK pagination) = Some w'
    /\ detail_reqs w' = detail_reqs w ++ map details_request res
    /\ activeTab (st w') = TabResults
    /\ loading (st w') = false
    /\ nextPage (st w')
       = match pagination with
         | Some p => if hasNextPage p then Some (DelayedNextPage p) else None
         | None => None
         end
    /\ results (st w') = results (st w)
    /\ error (st w') = error (st w)
    /\ page_reqs w' = delete i (page_reqs w)
    /\ timers w' = timers w.
Proof.
  intros [r Hi]. eexists. split.
  - simpl. rewrite Hi, placesCallback_success. reflexivity.
  - simpl. repeat split.
Qed.

Lemma successful_page_effect_witness :
  exists w',
    step awaiting_first_page
      (PageReply 0 [cafe_summary; unrated_place] PlacesServiceStatus_OK
         (Some {| pag_id := 2; hasNextPage := false |})) = Some w'
    /\ detail_reqs w'
       = [details_request cafe_summary; details_request unrated_place]
    /\ activeTab (st w') = TabResults
    /\ loading (st w') = false
    /\ nextPage (st w') = None
    /\ results (st w') = []
    /\ error (st w') = []
    /\ page_reqs w' = []
    /\ timers w' = [].
Proof.
  apply (successful_page_effect awaiting_first_page 0
           [cafe_summary; unrated_place]
           (Some {| pag_id := 2; hasNextPage := false |})).
  vm_compute. eauto.
Defined.

(** X11: when a successful page with at least one summary arrives while
    the result list is empty and no error message is stored (the state a new
    search leaves when no older lookup has appended since), the results view
    it switches to shows no card and displays the "No results found"
    message, although the lookups of the page are in flight. *)
Theorem empty_message_while_lookups_in_flight (w : World) (i : nat)
    (res : list Place) (pagination : option Pagination) :
  isAuthenticated (st w) = true ->
  is_Some (page_reqs w !! i) ->
  results (st w) = [] ->
  error (st w) = [] ->
  res <> [] ->
  exists w' v,
    step w (PageReply i res PlacesServiceStatus_OK pagination) = Some w'
    /\ detail_reqs w' = detail_reqs w ++ map details_request res
    /\ detail_reqs w' <> []
    /\ render (st w') = ResultsScreen v
    /\ grid v = None
    /\ empty_message v = true
    /\ spinner v = false
    /\ error_alert v = None.
Proof.
  intros Hau [r Hi] Hres Herr Hne. eexists. eexists. split.
  - simpl. rewrite Hi, placesCallback_success. reflexivity.
  - split; [reflexivity |]. split.
    + simpl. destruct res; [congruence |]. simpl.
      intros Hc. apply app_eq_nil in Hc. destruct Hc as [_ Hc]. discriminate.
    + unfold render. simpl. rewrite Hau. simpl.
      unfold render_results. simpl. rewrite Hres, Herr. simpl.
      repeat split.
Qed.

Lemma empty_message_while_lookups_in_flight_witness :
  exists w' v,
    step awaiting_first_page
      (PageReply 0 [cafe_summary] PlacesServiceStatus_OK (Some more_pages))
    = Some w'
    /\ detail_reqs w' = [] ++ map details_request [cafe_summary]
    /\ detail_reqs w' <> []
    /\ render (st w') = ResultsScreen v
    /\ grid v = None
    /\ empty_message v = true
    /\ spinner v = false
    /\ error_alert v = None.
Proof.
  apply (empty_message_while_lookups_in_flight awaiting_first_page 0
           [cafe_summary] (Some more_pages));
    [reflexivity | vm_compute; eauto | reflexivity | reflexivity
    | discriminate].
Defined.

(** X19: a lookup that answers with status OK appends the detail record
    the provider passed, not the summary, as the last entry of the result
    list; the flags, the error message, the continuation and the other
    lookups in flight are untouched. *)
Theorem successful_lookup_appends_details (w : World) (i : nat)
    (r : DetailsReq) (details : Place) :
  detail_reqs w !! i = Some r ->
  exists w',
    step w (DetailsReply i details PlacesServiceStatus_OK) = Some w'
    /\ results (st w') = results (st w) ++ [details]
    /\ detail_reqs w' = delete i (detail_reqs w)
    /\ loading (st w') = loading (st w)
    /\ error (st w') = error (st w)
    /\ nextPage (st w') = nextPage (st w)
    /\ activeTab (st w') = activeTab (st w)
    /\ page_reqs w' = page_reqs w.
Proof.
  intros Hi. eexists. split.
  - simpl. rewrite Hi. reflexivity.
  - simpl. repeat split.
Qed.

Lemma successful_lookup_appends_details_witness :
  exists w',
    step after_first_page (DetailsReply 0 cafe_details PlacesServiceStatus_OK)
    = Some w'
    /\ results (st w') = [] ++ [cafe_details]
    /\ detail_reqs w' = []
    /\ loading (st w') = false
    /\ error (st w') = []
    /\ nextPage (st w') = Some (DelayedNextPage more_pages)
    /\ activeTab (st w') = TabResults
    /\ page_reqs w' = [].
Proof.
  apply (successful_lookup_appends_details after_first_page 0
           (details_request cafe_summary) cafe_details).
  reflexivity.
Defined.

(** ** What is in flight *)

(** X12: a continuation is stored, a Load More timer is armed and a
    next-page call is made only for a pagination object that has a next
    page. *)
Theorem continuation_only_for_further_pages (now : Z)
    (ls : gmap jsstring Session) (sdk : bool) (evs : list Event) (w : World) :
  run (boot now ls sdk) evs = Some w ->
  (forall p, nextPage (st w) = Some (DelayedNextPage p) ->
             hasNextPage p = true)
  /\ (forall t p, t ∈ timers w -> thunk t = CallNextPage p ->
                  hasNextPage p = true)
  /\ (forall p, ReqNextPage p ∈ page_reqs w -> hasNextPage p = true).
Proof.
  intros Hrun.
  destruct (inv_continues _ (visit_invariant _ _ _ _ _ Hrun))
    as (Hnp & Htm & Hpr).
  split; [| split].
  - intros p Hp. rewrite Hp in Hnp. exact Hnp.
  - intros t p Ht Hth. rewrite Forall_forall in Htm.
    specialize (Htm t Ht). rewrite Hth in Htm. exact Htm.
  - intros p Hp. rewrite Forall_forall in Hpr. exact (Hpr _ Hp).
Qed.

Lemma continuation_only_for_further_pages_witness :
  (forall p, nextPage (st load_more_pressed) = Some (DelayedNextPage p) ->
             hasNextPage p = true)
  /\ (forall t p, t ∈ timers load_more_pressed -> thunk t = CallNextPage p ->
                  hasNextPage p = true)
  /\ (forall p, ReqNextPage p ∈ page_reqs load_more_pressed ->
                hasNextPage p = true).
Proof.
  apply (continuation_only_for_further_pages 0 ∅ true
           (visit_events ++ press_load_more) load_more_pressed).
  vm_compute. reflexivity.
Defined.

(** X13: whenever a request, a lookup or a timer is outstanding, or a
    continuation is stored, the places service has been created:
    [serviceRef.current] is not null when a callback uses it. *)
Theorem service_ready_for_callbacks (now : Z) (ls : gmap jsstring Session)
    (sdk : bool) (evs : list Event) (w : World) :
  run (boot now ls sdk) evs = Some w ->
  is_Some (serviceRef w)
  \/ (page_reqs w = [] /\ detail_reqs w = [] /\ timers w = []
      /\ nextPage (st w) = None).
Proof.
  intros Hrun. pose proof (inv_service _ (visit_invariant _ _ _ _ _ Hrun)) as H.
  destruct (serviceRef w) as [ref |]; [left; eauto | right; apply H; reflexivity].
Qed.

Lemma service_ready_for_callbacks_witness :
  is_Some (serviceRef after_first_page)
  \/ (page_reqs after_first_page = [] /\ detail_reqs after_first_page = []
      /\ timers after_first_page = []
      /\ nextPage (st after_first_page) = None).
Proof.
  apply (service_ready_for_callbacks 0 ∅ true visit_events after_first_page).
  vm_compute. reflexivity.
Defined.

(** X14: every lookup in flight asks for the place id of the summary its
    callback holds and for the same seven fields. *)
Theorem lookups_request_fixed_fields (now : Z) (ls : gmap jsstring Session)
    (sdk : bool) (evs : list Event) (w : World) (r : DetailsReq) :
  run (boot now ls sdk) evs = Some w ->
  r ∈ detail_reqs w ->
  req_placeId r = place_id (req_place r)
  /\ req_fields r
     = [lit "name"; lit "formatted_address"; lit "formatted_phone_number";
        lit "website"; lit "rating"; lit "user_ratings_total"; lit "photos"].
Proof.
  intros Hrun Hr.
  pose proof (inv_lookups _ (visit_invariant _ _ _ _ _ Hrun)) as Hall.
  rewrite Forall_forall in Hall. specialize (Hall r Hr).
  rewrite Hall. split; reflexivity.
Qed.

Lemma lookups_request_fixed_fields_witness :
  req_placeId (details_request cafe_summary)
  = place_id (req_place (details_request cafe_summary))
  /\ req_fields (details_request cafe_summary)
     = [lit "name"; lit "formatted_address"; lit "formatted_phone_number";
        lit "website"; lit "rating"; lit "user_ratings_total"; lit "photos"].
Proof.
  apply (lookups_request_fixed_fields 0 ∅ true visit_events after_first_page
           (details_request cafe_summary));
    [vm_compute; reflexivity | vm_compute; apply list_elem_of_here].
Defined.

(** X15: a pending Load More timer is never due more than 2000 ms ahead
    of the current time. *)
Theorem timers_due_within_two_seconds (now : Z) (ls : gmap jsstring Session)
    (sdk : bool) (evs : list Event) (w : World) (t : Timer) :
  run (boot now ls sdk) evs = Some w ->
  t ∈ timers w ->
  due t <= clock w + 2000.
Proof.
  intros Hrun Ht.
  pose proof (inv_due _ (visit_invariant _ _ _ _ _ Hrun)) as Hall.
  rewrite Forall_forall in Hall. exact (Hall t Ht).
Qed.

Lemma timers_due_within_two_seconds_witness :
  due {| tid := 0; due := 2000; thunk := CallNextPage more_pages |}
  <= clock load_more_pressed + 2000.
Proof.
  apply (timers_due_within_two_seconds 0 ∅ true
           (visit_events ++ press_load_more) load_more_pressed
           {| tid := 0; due := 2000; thunk := CallNextPage more_pages |});
    [vm_compute; reflexivity | vm_compute; apply list_elem_of_here].
Defined.

(** ** Blank queries *)

Lemma trimStart_nil_iff s :
  trimStart s = [] <-> forallb is_trim_space s = true.
Proof.
  induction s as [| c r IH]; simpl; [tauto |].
  destruct (is_trim_space c); simpl; [exact IH |].
  split; discriminate.
Qed.

Lemma trimStart_head s c r :
  trimStart s = c :: r -> is_trim_space c = false.
Proof.
  induction s as [| c0 r0 IH]; simpl; [discriminate |].
  destruct (is_trim_space c0) eqn:Hc; [exact IH |].
  intros H. injection H as <- _. exact Hc.
Qed.

Lemma forallb_rev {A} (f : A -> bool) (l : list A) :
  forallb f (rev l) = forallb f l.
Proof.
  induction l as [| x l IH]; simpl; [reflexivity |].
  rewrite forallb_app, IH. simpl. rewrite andb_true_r. apply andb_comm.
Qed.

Lemma trim_nil_iff s : trim s = [] <-> forallb is_trim_space s = true.
Proof.
  unfold trim, trimEnd. rewrite <- trimStart_nil_iff.
  split.
  - intros H. apply (f_equal (@rev N)) in H. rewrite rev_involutive in H.
    simpl in H. apply trimStart_nil_iff in H. rewrite forallb_rev in H.
    destruct (trimStart s) as [| c r] eqn:Hs; [reflexivity |].
    apply trimStart_head in Hs. simpl in H. rewrite Hs in H. discriminate.
  - intros ->. reflexivity.
Qed.

(** X16: [handleSearch] does nothing exactly when every code unit of the
    query is white space or a line terminator (the empty query included):
    then it performs no command and the world is unchanged; for every
    other query it performs commands and empties the result list. *)
Theorem handleSearch_noop_iff_blank (w : World) :
  if forallb is_trim_space (query (st w))
  then handleSearch w = [] /\ run_cmds (handleSearch w) w = w
  else handleSearch w <> []
       /\ results (st (run_cmds (handleSearch w) w)) = []
       /\ nextPage (st (run_cmds (handleSearch w) w)) = None.
Proof.
  pose proof (trim_nil_iff (query (st w))) as Hiff.
  unfold handleSearch.
  destruct (forallb is_trim_space (query (st w))).
  - rewrite (proj2 Hiff eq_refl). simpl. split; reflexivity.
  - destruct (trim (query (st w))) as [| c r];
      [destruct Hiff as [Hiff _]; specialize (Hiff eq_refl); discriminate |].
    simpl. split; [discriminate |].
    destruct (sdk_loaded w); [| split; reflexivity].
    destruct (sdk_fault w) as [[[|] message] |]; split; reflexivity.
Qed.

Example handleSearch_blank_examples :
  handleSearch (at_search_form [9; 32; 160; 8195; 12288; 65279]%N true) = []
  /\ handleSearch (at_search_form [] true) = []
  /\ handleSearch (at_search_form (lit " a ") true) <> [].
Proof. repeat split. discriminate. Qed.

(** ** The sanitized query *)

(** X17: sanitizing is idempotent, and it leaves a query unchanged exactly
    when all its code units are in [A-Za-z0-9_-]. *)
Theorem sanitizedQuery_idempotent (q : jsstring) :
  sanitizedQuery (sanitizedQuery q) = sanitizedQuery q
  /\ (sanitizedQuery q = q <-> forallb in_class q = true).
Proof.
  rewrite !sanitizedQuery_spec. unfold spec_sanitize. split.
  - rewrite map_map. apply map_ext. intros c.
    destruct (in_class c) eqn:Hc; [rewrite Hc; reflexivity | reflexivity].
  - induction q as [| c q IH]; simpl; [tauto |].
    destruct (in_class c) eqn:Hc; simpl.
    + rewrite <- IH. split; [intros H; injection H; tauto | intros ->; reflexivity].
    + split; [| discriminate].
      intros H. injection H as H _. rewrite <- H in Hc. discriminate.
Qed.

(** ** Download *)

(** X18: Download Excel is available only while results are shown; it
    saves one workbook whose sheet "Google Leads" has one row per card, in
    the order of the cards, and it changes neither the component state nor
    what is in flight. *)
Theorem download_leaves_state (w w' : World) :
  step w ClickDownload = Some w' ->
  exists d v g,
    downloads w' = downloads w ++ [d]
    /\ sheet_name d = lit "Google Leads"
    /\ render (st w) = ResultsScreen v
    /\ grid v = Some g
    /\ cards g <> []
    /\ Forall2 row_ok (cards g) (sheet_rows d)
    /\ st w' = st w
    /\ page_reqs w' = page_reqs w
    /\ detail_reqs w' = detail_reqs w
    /\ timers w' = timers w.
Proof.
  intros Hstep. simpl in Hstep. unfold results_shown in Hstep.
  destruct (isAuthenticated (st w)) eqn:Hau; [| discriminate].
  destruct (activeTab (st w)) eqn:Htab; [discriminate |].
  destruct (results (st w)) as [| item l] eqn:Hres; [discriminate |].
  simpl in Hstep. injection Hstep as <-.
  do 3 eexists. split; [reflexivity |]. split; [reflexivity |].
  split; [unfold render; rewrite Hau, Htab; reflexivity |].
  split; [unfold render_results; rewrite Hres; reflexivity |].
  split; [discriminate |].
  split.
  - simpl. clear Hres. constructor; [apply export_row_ok |].
    induction l as [| x rs IH]; simpl; constructor;
      [apply export_row_ok | exact IH].
  - simpl. repeat split.
Qed.

Lemma download_leaves_state_witness :
  exists d v g,
    downloads (run_cmds (downloadExcel loading_more) loading_more)
    = downloads loading_more ++ [d]
    /\ sheet_name d = lit "Google Leads"
    /\ render (st loading_more) = ResultsScreen v
    /\ grid v = Some g
    /\ cards g <> []
    /\ Forall2 row_ok (cards g) (sheet_rows d)
    /\ st (run_cmds (downloadExcel loading_more) loading_more)
       = st loading_more
    /\ page_reqs (run_cmds (downloadExcel loading_more) loading_more)
       = page_reqs loading_more
    /\ detail_reqs (run_cmds (downloadExcel loading_more) loading_more)
       = detail_reqs loading_more
    /\ timers (run_cmds (downloadExcel loading_more) loading_more)
       = timers loading_more.
Proof.
  apply (download_leaves_state loading_more
           (run_cmds (downloadExcel loading_more) loading_more)).
  vm_compute. reflexivity.
Defined.

(** ** Errors and the results view *)

(** X20: a successful page does not dismiss an earlier error: when a page
    callback with status OK arrives while an error message is stored, the
    results view it switches to still shows that message in its alert. *)
Theorem stale_error_survives_success (w : World) (i : nat)
    (res : list Place) (pagination : option Pagination) :
  isAuthenticated (st w) = true ->
  is_Some (page_reqs w !! i) ->
  error (st w) <> [] ->
  exists w' v,
    step w (PageReply i res PlacesServiceStatus_OK pagination) = Some w'
    /\ render (st w') = ResultsScreen v
    /\ error_alert v = Some (error (st w))
    /\ spinner v = false
    /\ empty_message v = false.
Proof.
  intros Hau [r Hi] Herr. eexists. eexists. split.
  - simpl. rewrite Hi, placesCallback_success. reflexivity.
  - unfold render. simpl. rewrite Hau. simpl.
    split; [reflexivity |]. unfold render_results. simpl.
    destruct (error (st w)) as [| c e]; [congruence |]. simpl.
    rewrite andb_false_r. repeat split.
Qed.

Lemma stale_error_survives_success_witness :
  exists w' v,
    step retrying
      (PageReply 0 [unrated_place] PlacesServiceStatus_OK None) = Some w'
    /\ render (st w') = ResultsScreen v
    /\ error_alert v = Some (error (st retrying))
    /\ spinner v = false
    /\ empty_message v = false.
Proof.
  apply (stale_error_survives_success retrying 0 [unrated_place] None);
    [vm_compute; reflexivity | vm_compute; eauto | vm_compute; discriminate].
Defined.
